(** * go-mod-upgrade: the discovery, rendering, selection and apply pipeline

    A shallow embedding of [main.go].  Go strings are byte strings and are
    modelled by [string].  Go's [int] is modelled by [Z]: the only integers
    the program computes with are the lengths of strings it holds in memory,
    their maxima, one sum of three such maxima and 11, and the width of the
    terminal, so no operation can leave the range of a 64-bit [int] and the
    arithmetic is exact.  The [uint64] fields of a version are only compared
    and printed and are modelled by [N].  What the program does to its
    surroundings (printing, running commands, asking the terminal and the
    operator) is modelled by a state monad over a trace of events and a
    state of the world that answers the calls. *)

From Stdlib Require Import String Ascii List ZArith NArith Bool Lia.
From Stdlib Require Import DecimalString.
Import ListNotations.

Open Scope list_scope.
Open Scope string_scope.

(** ** Strings and formatting (strings, fmt) *)

(** [len(str)] as a Go [int]. *)
Definition len (str : string) : Z := Z.of_nat (String.length str).

(** [strings.Repeat(s, count)] for a non-negative count. *)
Fixpoint Repeat (s : string) (count : nat) : string :=
  match count with
  | O => ""
  | S n => s ++ Repeat s n
  end.

(** The verb [%d] (and [fmt.Sprint]) on an unsigned integer. *)
Definition fmt_d (n : N) : string := NilZero.string_of_uint (N.to_uint n).

Definition LF : ascii := "010"%char.
Definition ESC : ascii := "027"%char.

(** ** Colours (github.com/fatih/color) *)

Inductive Attribute : Type :=
| FgBlack | FgRed | FgGreen | FgYellow | FgBlue | FgMagenta | FgCyan | FgWhite.

(** The SGR parameter of a foreground colour (30 .. 37). *)
Definition sequence (a : Attribute) : string :=
  match a with
  | FgBlack => "30" | FgRed => "31" | FgGreen => "32" | FgYellow => "33"
  | FgBlue => "34" | FgMagenta => "35" | FgCyan => "36" | FgWhite => "37"
  end.

(** The names the specification gives to the colours the program uses:
    [formatName] starts with white, sets yellow, green and red in its three
    tests, and [formatTo] highlights in green. *)
Definition unstyledColor : Attribute := FgWhite.
Definition minorColor : Attribute := FgYellow.
Definition patchColor : Attribute := FgGreen.
Definition prereleaseColor : Attribute := FgRed.
Definition changedColor : Attribute := FgGreen.

(** ** Versions (github.com/Masterminds/semver/v3) *)

Record Version : Type := mkVersion {
  Major : N;
  Minor : N;
  Patch : N;
  Prerelease : string;
  Metadata : string;
  Original : string
}.

(** Modelled from the spec: the text of a version,
    [MAJOR.MINOR.PATCH[-PRERELEASE][+BUILD]] (section 4.1 and the glossary),
    which [Version.String()] of the semantic-version library produces from
    the fields; [Original] is not consulted. *)
Definition Version_String (v : Version) : string :=
  let buf := fmt_d (Major v) ++ "." ++ fmt_d (Minor v) ++ "." ++ fmt_d (Patch v) in
  let buf := if String.eqb (Prerelease v) "" then buf else buf ++ "-" ++ Prerelease v in
  let buf := if String.eqb (Metadata v) "" then buf else buf ++ "+" ++ Metadata v in
  buf.

(** [type Module struct]; [Module] is a reserved word here. *)
Record GoModule : Type := mkModule {
  name : string;
  from : Version;
  to : Version
}.

(** ** Rendering *)

Definition max (x y : Z) : Z := if (x >? y)%Z then x else y.

Definition padRight (str : string) (length : Z) : string :=
  if (len str >=? length)%Z then str
  else str ++ Repeat " " (Z.to_nat (length - len str)).

(** A piece of text written with or without a colour.  A [bytes.Buffer] that
    receives the results of [Fprintf] is modelled by the list of pieces
    written to it, in order. *)
Inductive chunk : Type :=
| Plain (s : string)
| Colored (a : Attribute) (s : string).

Definition isPlain (c : chunk) : bool :=
  match c with Plain _ => true | Colored _ _ => false end.

Section Rendering.

(** [color.NoColor]: set by the colour library when standard output is not
    a terminal; colour functions then return their argument unchanged. *)
Variable NoColor : bool.

(** [color.New(a).SprintFunc()] applied to a text: the colour library puts
    the text between the escape sequence of the colour and the reset
    sequence, unless colours are switched off. *)
Definition SprintFunc (a : Attribute) (s : string) : string :=
  if NoColor then s
  else String ESC ("[" ++ sequence a ++ "m") ++ s ++ String ESC "[0m".

Definition chunk_String (c : chunk) : string :=
  match c with
  | Plain s => s
  | Colored a s => SprintFunc a s
  end.

(** [buf.String()]. *)
Definition Buffer_String (buf : list chunk) : string :=
  fold_right (fun c acc => chunk_String c ++ acc) "" buf.

(** The colour [c] that [formatName] holds after its three tests. *)
Definition formatName_c (module : GoModule) : Attribute :=
  let c := FgWhite in
  let from := from module in
  let to := to module in
  let c := if negb (Minor from =? Minor to)%N then FgYellow else c in
  let c := if negb (Patch from =? Patch to)%N then FgGreen else c in
  let c := if negb (String.eqb (Prerelease from) (Prerelease to)) then FgRed else c in
  c.

Definition formatName (module : GoModule) (length : Z) : string :=
  SprintFunc (formatName_c module) (padRight (name module) length).

Definition formatFrom (from : Version) (length : Z) : string :=
  SprintFunc FgBlue (padRight (Version_String from) length).

(** The buffer of [formatTo] just before [buf.String()]; the flag [same]
    is threaded through the tests as in the source. *)
Definition formatTo_buf (module : GoModule) : list chunk :=
  let green := Colored FgGreen in
  let buf := [] in
  let from := from module in
  let to := to module in
  let same := true in
  let buf := (buf ++ [Plain (fmt_d (Major to) ++ ".")])%list in
  let '(buf, same) :=
    if (Minor from =? Minor to)%N
    then ((buf ++ [Plain (fmt_d (Minor to) ++ ".")])%list, same)
    else ((buf ++ [green (fmt_d (Minor to)); green "."])%list, false) in
  let '(buf, same) :=
    if (Patch from =? Patch to)%N && same
    then ((buf ++ [Plain (fmt_d (Patch to))])%list, same)
    else ((buf ++ [green (fmt_d (Patch to))])%list, false) in
  let buf :=
    if negb (String.eqb (Prerelease to) "")
    then
      if String.eqb (Prerelease from) (Prerelease to) && same
      then (buf ++ [Plain ("-" ++ Prerelease to)])%list
      else (buf ++ [Plain "-"; green (Prerelease to)])%list
    else buf in
  let buf :=
    if negb (String.eqb (Metadata to) "")
    then (buf ++ [green "+"; green (Metadata to)])%list
    else buf in
  buf.

Definition formatTo (module : GoModule) : string :=
  Buffer_String (formatTo_buf module).

End Rendering.

(** ** Splitting and matching lines (strings, regexp) *)

Module strings.

(** [strings.Split(s, sep)] for a separator of one byte: the pieces between
    the separators, so [n] separators give [n + 1] pieces. *)
Fixpoint Split (s : string) (sep : ascii) : list string :=
  match s with
  | "" => [""]
  | String c s' =>
      if Ascii.eqb c sep then "" :: Split s' sep
      else match Split s' sep with
           | piece :: pieces => String c piece :: pieces
           | [] => [String c ""]
           end
  end.

Fixpoint take (n : nat) (s : string) : string :=
  match n, s with
  | S n', String c s' => String c (take n' s')
  | _, _ => ""
  end.

Fixpoint drop (n : nat) (s : string) : string :=
  match n, s with
  | S n', String _ s' => drop n' s'
  | _, _ => s
  end.

End strings.

Module regexp.

(** The fragment of the pattern language that the program uses: literal
    bytes and the greedy capturing group [(.+)].  Matching is by bytes; the
    delimiters of the program's pattern are ASCII, so groups begin and end
    on the same bytes as under Go's matching by UTF-8 runes. *)
Inductive node : Type :=
| Lit (c : ascii)
| AnyPlus.

Definition Regexp : Type := list node.

Fixpoint MustCompile (pattern : string) : Regexp :=
  match pattern with
  | String "(" (String "." (String "+" (String ")" rest))) => AnyPlus :: MustCompile rest
  | String c rest => Lit c :: MustCompile rest
  | "" => []
  end.

(** [.] matches every byte but the line feed. *)
Fixpoint dot_run (s : string) : nat :=
  match s with
  | String c s' => if Ascii.eqb c LF then O else S (dot_run s')
  | "" => O
  end.

(** The greedy group: the longest run first, then shorter ones, down to one
    byte, until the rest of the pattern [k] matches what follows. *)
Fixpoint try_lengths (k : string -> option (string * list string))
                     (s : string) (n : nat) : option (string * list string) :=
  match n with
  | O => None
  | S n' =>
      match k (strings.drop n s) with
      | Some (m, groups) => Some (strings.take n s ++ m, strings.take n s :: groups)
      | None => try_lengths k s n'
      end
  end.

(** A match that starts at the first byte of [s]: the text matched and the
    texts of the groups. *)
Fixpoint match_here (re : Regexp) (s : string) : option (string * list string) :=
  match re with
  | [] => Some ("", [])
  | Lit c :: re' =>
      match s with
      | String c' s' =>
          if Ascii.eqb c c'
          then match match_here re' s' with
               | Some (m, groups) => Some (String c' m, groups)
               | None => None
               end
          else None
      | "" => None
      end
  | AnyPlus :: re' => try_lengths (match_here re') s (dot_run s)
  end.

(** [re.FindStringSubmatch(s)]: the leftmost match; [nil] when there is
    none, else the whole match followed by the groups. *)
Fixpoint FindStringSubmatch (re : Regexp) (s : string) : list string :=
  match match_here re s with
  | Some (m, groups) => m :: groups
  | None =>
      match s with
      | String _ s' => FindStringSubmatch re s'
      | "" => []
      end
  end.

End regexp.

Definition re : regexp.Regexp := regexp.MustCompile "'(.+): (.+) -> (.+)'".

(** ** Errors *)

(** Go's [error] values, by where they are made. *)
Inductive error : Type :=
| Errorf (msg : string)      (* made by this program with fmt.Errorf *)
| LibError (msg : string)    (* returned by a library or the operating system *)
| InterruptErr.              (* terminal.InterruptErr of the selection widget *)

(** [err.Error()]. *)
Definition Error (e : error) : string :=
  match e with
  | Errorf msg => msg
  | LibError msg => msg
  | InterruptErr => "interrupt"
  end.

(** ** Parsing versions *)

Module semver.

Definition is_digit (c : ascii) : bool :=
  let n := nat_of_ascii c in (48 <=? n)%nat && (n <=? 57)%nat.

Definition is_ident_char (c : ascii) : bool :=
  let n := nat_of_ascii c in
  is_digit c || ((65 <=? n)%nat && (n <=? 90)%nat)
             || ((97 <=? n)%nat && (n <=? 122)%nat) || Ascii.eqb c "-".

Fixpoint all_chars (p : ascii -> bool) (s : string) : bool :=
  match s with
  | "" => true
  | String c s' => p c && all_chars p s'
  end.

(** The text before the first [sep] and, when [sep] occurs, the text after. *)
Fixpoint cut (sep : ascii) (s : string) : string * option string :=
  match s with
  | "" => ("", None)
  | String c s' =>
      if Ascii.eqb c sep then ("", Some s')
      else let '(l, r) := cut sep s' in (String c l, r)
  end.

(** A numeric field: digits without a leading zero, within [uint64]. *)
Definition number (s : string) : option N :=
  match s with
  | "" => None
  | String c rest =>
      if all_chars is_digit s && (negb (Ascii.eqb c "0") || String.eqb rest "")
      then match NilZero.uint_of_string s with
           | Some u => let n := N.of_uint u in
                       if (n <? 2 ^ 64)%N then Some n else None
           | None => None
           end
      else None
  end.

Definition identifier (numeric_rule : bool) (s : string) : bool :=
  match s with
  | "" => false
  | String c rest =>
      all_chars is_ident_char s &&
      (negb numeric_rule || negb (all_chars is_digit s)
       || negb (Ascii.eqb c "0") || String.eqb rest "")
  end.

Definition identifiers (numeric_rule : bool) (s : string) : bool :=
  forallb (identifier numeric_rule) (strings.Split s ".").

(** Modelled from the spec: the Version Model's [parseVersion] (section
    4.1), which lives in the semantic-version library and not in the
    program's source.  It accepts [MAJOR.MINOR.PATCH[-PRERELEASE][+BUILD]],
    with the leading [v] that section 9 mentions, and rejects everything
    else.  The program itself is modelled over any parser (the variable
    [NewVersion] below); this one serves the concrete scenarios. *)
Definition parseVersion (text : string) : Version + error :=
  let invalid := inr (LibError "Invalid Semantic Version") in
  let body := match text with String "v" rest => rest | _ => text end in
  let '(front, meta) := cut "+" body in
  let '(core, pre) := cut "-" front in
  match strings.Split core "." with
  | [ma; mi; pa] =>
      match number ma, number mi, number pa with
      | Some major, Some minor, Some patch =>
          let pre_ok := match pre with Some p => identifiers true p | None => true end in
          let meta_ok := match meta with Some m => identifiers false m | None => true end in
          if pre_ok && meta_ok
          then inl (mkVersion major minor patch
                      (match pre with Some p => p | None => "" end)
                      (match meta with Some m => m | None => "" end)
                      text)
          else invalid
      | _, _, _ => invalid
      end
  | _ => invalid
  end.

End semver.

(** ** The outside world *)

(** What the program does to its surroundings, in order, each call to a
    collaborator with the answer it received. *)
Inductive event : Type :=
| EvStdout (s : string)                                     (* fmt.Println, fmt.Printf *)
| EvColorOutput (s : string)                                (* fmt.Fprintf(color.Output, ...) *)
| EvLog (s : string)                                        (* the message of log.Fatal *)
| EvExec (argv : list string) (out : string) (err : option error)
| EvGetSize (width height : Z) (err : option error)
| EvAskOne (options : list string) (pageSize : Z) (choice : list Z) (err : option error).

(** How a call ends: it returns, the process exits, or an index is out of
    range. *)
Inductive outcome (A : Type) : Type :=
| Returns (a : A)
| Exits (code : Z)
| Panics.
Arguments Returns {A} a.
Arguments Exits {A} code.
Arguments Panics {A}.

(** The collaborators, over a state of the world of their own. *)
Record System (World : Type) : Type := mkSystem {
  (* exec.Command(argv...).Output() *)
  Output : list string -> World -> string * option error * World;
  (* exec.Command(argv...).CombinedOutput() *)
  CombinedOutput : list string -> World -> string * option error * World;
  (* terminal.GetSize(fd) on standard output *)
  GetSize : World -> Z * Z * option error * World;
  (* survey.AskOne(&survey.MultiSelect{Options, PageSize}, &choice) *)
  AskOne : list string -> Z -> World -> list Z * option error * World
}.
Arguments Output {World} _ _ _.
Arguments CombinedOutput {World} _ _ _.
Arguments GetSize {World} _ _.
Arguments AskOne {World} _ _ _ _.

Record state (World : Type) : Type := mkState {
  world : World;
  trace : list event
}.
Arguments mkState {World} _ _.
Arguments world {World} _.
Arguments trace {World} _.

Definition nl : string := String LF "".

Section Program.

Variable NoColor : bool.
(* semver.NewVersion *)
Variable NewVersion : string -> Version + error.
Variable World : Type.
Variable sys : System World.

(** A computation that may write, call a collaborator, exit or panic. *)
Definition M (A : Type) : Type := state World -> outcome A * state World.

Definition ret {A : Type} (a : A) : M A := fun st => (Returns a, st).

Definition bind {A B : Type} (m : M A) (k : A -> M B) : M B :=
  fun st =>
    match m st with
    | (Returns a, st') => k a st'
    | (Exits code, st') => (Exits code, st')
    | (Panics, st') => (Panics, st')
    end.

Notation "x <- m ;; k" := (bind m (fun x => k))
  (at level 61, m at next level, right associativity).
Notation "' pat <- m ;; k" := (bind m (fun x => match x with pat => k end))
  (at level 61, pat pattern, m at next level, right associativity).

Definition emit (e : event) : M unit :=
  fun st => (Returns tt, mkState (world st) (trace st ++ [e])).

Definition Printf (s : string) : M unit := emit (EvStdout s).
Definition Println (s : string) : M unit := emit (EvStdout (s ++ nl)).

Definition Exit {A : Type} (code : Z) : M A := fun st => (Exits code, st).

(** [log.Fatal(err)]: the message, then exit status 1. *)
Definition Fatal {A : Type} (err : error) : M A :=
  fun st => (Exits 1%Z, mkState (world st) (trace st ++ [EvLog (Error err)])).

Definition exec_Output (argv : list string) : M (string * option error) :=
  fun st =>
    let '(out, err, w) := Output sys argv (world st) in
    (Returns (out, err), mkState w (trace st ++ [EvExec argv out err])).

Definition exec_CombinedOutput (argv : list string) : M (string * option error) :=
  fun st =>
    let '(out, err, w) := CombinedOutput sys argv (world st) in
    (Returns (out, err), mkState w (trace st ++ [EvExec argv out err])).

Definition terminal_GetSize : M (Z * Z * option error) :=
  fun st =>
    let '(width, height, err, w) := GetSize sys (world st) in
    (Returns (width, height, err), mkState w (trace st ++ [EvGetSize width height err])).

Definition survey_AskOne (options : list string) (pageSize : Z)
  : M (list Z * option error) :=
  fun st =>
    let '(choice, err, w) := AskOne sys options pageSize (world st) in
    (Returns (choice, err), mkState w (trace st ++ [EvAskOne options pageSize choice err])).

(** *** discover *)

Definition discover_args : list string :=
  ["list"; "-u"; "-mod=mod"; "-f";
   "'{{if (and (not (or .Main .Indirect)) .Update)}}{{.Path}}: {{.Version}} -> {{.Update.Version}}{{end}}'";
   "-m"; "all"].

(** The loop over the lines; a result is Go's pair of a slice ([nil] is
    the empty list) and an error ([nil] is [None]). *)
Fixpoint discover_loop (verbose : bool) (split : list string) (modules : list GoModule)
  : M (list GoModule * option error) :=
  match split with
  | [] => ret (modules, None)
  | x :: split' =>
      if negb (String.eqb x "''") && negb (String.eqb x "") then
        let matched := regexp.FindStringSubmatch re x in
        if (Z.of_nat (List.length matched) <? 4)%Z then
          ret ([], Some (Errorf ("Couldn't parse module " ++ x)))
        else
          let name := nth 1 matched "" in
          let from := nth 2 matched "" in
          let to := nth 3 matched "" in
          _ <- (if verbose
                then Printf ("Found module " ++ name ++ ", from " ++ from ++ " to " ++ to ++ nl)
                else ret tt) ;;
          match NewVersion from with
          | inr err => ret ([], Some err)
          | inl fromversion =>
              match NewVersion to with
              | inr err => ret ([], Some err)
              | inl toversion =>
                  let d := mkModule name fromversion toversion in
                  discover_loop verbose split' (modules ++ [d])%list
              end
          end
      else discover_loop verbose split' modules
  end.

Definition discover (verbose : bool) : M (list GoModule * option error) :=
  _ <- Println "Discovering modules..." ;;
  '(list, err) <- exec_Output ("go" :: discover_args) ;;
  match err with
  | Some e => ret ([], Some e)
  | None =>
      let split := strings.Split list LF in
      discover_loop verbose split []
  end.

(** *** choose *)

(** The first loop of [choose]: the widths of the three columns. *)
Definition choose_max (modules : list GoModule) : Z * Z * Z :=
  fold_left
    (fun '(maxName, maxFrom, maxTo) x =>
       (max maxName (len (name x)),
        max maxFrom (len (Version_String (from x))),
        max maxTo (len (Version_String (to x)))))
    modules (0, 0, 0)%Z.

(** The test that guards the assignment to [from] in the second loop. *)
Definition showFrom (termWidth maxName maxFrom maxTo : Z) : bool :=
  (termWidth >? maxName + maxFrom + maxTo + 11)%Z.

(** The value of the variable [from] when the option of [x] is built: the
    empty string unless the test succeeds. *)
Definition choose_from (termWidth maxName maxFrom maxTo : Z) (x : GoModule) : string :=
  if showFrom termWidth maxName maxFrom maxTo
  then formatFrom NoColor (from x) maxFrom
  else "".

(** The second loop of [choose]: one option per module. *)
Definition choose_options (termWidth maxName maxFrom maxTo : Z) (modules : list GoModule)
  : list string :=
  map (fun x =>
         formatName NoColor x maxName ++ " "
         ++ choose_from termWidth maxName maxFrom maxTo x
         ++ " -> " ++ formatTo NoColor x)
      modules.

(** The last loop of [choose]: [modules[x]] for every chosen index. *)
Fixpoint choose_updates (modules : list GoModule) (choice : list Z) (updates : list GoModule)
  : M (list GoModule) :=
  match choice with
  | [] => ret updates
  | x :: choice' =>
      if (x <? 0)%Z then (fun st => (Panics, st))
      else match nth_error modules (Z.to_nat x) with
           | Some m => choose_updates modules choice' (updates ++ [m])%list
           | None => (fun st => (Panics, st))
           end
  end.

Definition choose (modules : list GoModule) (pageSize : Z) : M (list GoModule) :=
  let '(maxName, maxFrom, maxTo) := choose_max modules in
  '(termWidth, _, err) <- terminal_GetSize ;;
  _ <- match err with
       | Some e => Printf ("Error while getting terminal size " ++ Error e ++ nl)
       | None => ret tt
       end ;;
  let options := choose_options termWidth maxName maxFrom maxTo modules in
  '(choice, err) <- survey_AskOne options pageSize ;;
  match err with
  | Some InterruptErr => _ <- Println "Bye" ;; Exit 0%Z
  | Some e => Fatal e
  | None => choose_updates modules choice []
  end.

(** *** update *)

Fixpoint update (modules : list GoModule) : M unit :=
  match modules with
  | [] => ret tt
  | x :: modules' =>
      _ <- emit (EvColorOutput
                   ("Updating " ++ formatName NoColor x (len (name x))
                    ++ " to version " ++ formatTo NoColor x ++ "..." ++ nl)) ;;
      '(out, err) <- exec_CombinedOutput ["go"; "get"; name x] ;;
      _ <- match err with
           | Some _ => Printf ("Error while updating " ++ name x ++ ": " ++ out ++ nl)
           | None => ret tt
           end ;;
      update modules'
  end.

(** *** main, after the flags [-p] and [-v] have been read *)

Definition main (pageSize : Z) (verbose : bool) : M unit :=
  '(modules, err) <- discover verbose ;;
  match err with
  | Some e => Fatal e
  | None =>
      if (Z.of_nat (List.length modules) >? 0)%Z
      then modules <- choose modules pageSize ;; update modules
      else Println "All modules are up to date"
  end.

End Program.

Arguments ret {World A} a _.
Arguments bind {World A B} m k _.

(** ** A scripted world for the scenarios

    The listing command prints [listing]; the terminal answers [size]; the
    operator's answer is [answer]; [go get] fails, with the text
    ["boom"], exactly for the names in [failing]. *)
Record script : Type := mkScript {
  listing : string * option error;
  size : Z * Z * option error;
  answer : list Z * option error;
  failing : list string
}.

Definition scripted : System script :=
  mkSystem script
    (fun _ w => (listing w, w))
    (fun argv w =>
       let target := nth 2 argv "" in
       if existsb (String.eqb target) (failing w)
       then ("boom", Some (LibError "exit status 1"), w)
       else ("", None, w))
    (fun w => (size w, w))
    (fun _ _ w => (answer w, w)).

(** ** Records of the scenarios *)

Definition version (major minor patch : N) (pre meta : string) : Version :=
  mkVersion major minor patch pre meta
    (Version_String (mkVersion major minor patch pre meta "")).

(* 1.2.3 -> 1.3.3-rc: the minor field and the prerelease differ *)
Definition minor_and_pre : GoModule :=
  mkModule "foo" (version 1 2 3 "" "") (version 1 3 3 "rc" "").
(* 1.2.3-beta -> 1.3.0-beta *)
Definition beta_to_beta : GoModule :=
  mkModule "foo" (version 1 2 3 "beta" "") (version 1 3 0 "beta" "").
(* 1.2.3 -> 1.2.3-rc *)
Definition release_to_rc : GoModule :=
  mkModule "foo" (version 1 2 3 "" "") (version 1 2 3 "rc" "").
(* 1.0.0 -> 2.0.0: only the major field differs *)
Definition major_only : GoModule :=
  mkModule "foo" (version 1 0 0 "" "") (version 2 0 0 "" "").
(* 1.2.3 -> 1.3.3: the minor field differs, the patch field does not *)
Definition minor_only : GoModule :=
  mkModule "foo" (version 1 2 3 "" "") (version 1 3 3 "" "").
(* 1.0.0+build -> 1.0.0+build *)
Definition same_with_build : GoModule :=
  mkModule "foo" (version 1 0 0 "" "build") (version 1 0 0 "" "build").

(* 1.2.3 -> 1.3.0 *)
Definition foo_record : GoModule :=
  mkModule "foo" (version 1 2 3 "" "") (version 1 3 0 "" "").

(* one record whose name has 10 bytes and whose versions have 8 bytes each *)
Definition wide : GoModule :=
  mkModule "github.com" (version 10 20 30 "" "") (version 10 20 31 "" "").

Definition three_modules : list GoModule :=
  [ mkModule "a" (version 1 0 0 "" "") (version 1 0 1 "" "");
    mkModule "b" (version 1 0 0 "" "") (version 1 1 0 "" "");
    mkModule "c" (version 1 0 0 "" "") (version 1 0 0 "rc" "") ].

(* a world in which [go get b] fails *)
Definition b_fails : script :=
  mkScript ("", None) (80, 24, None)%Z ([], None) ["b"].

(* a listing whose only line lacks the arrow *)
Definition no_arrow : script :=
  mkScript ("'foo: 1.2.3 1.3.0'" ++ nl, None) (80, 24, None)%Z ([], None) [].

(* a listing whose first line carries texts that are no versions and whose
   second line does not match the pattern *)
Definition bad_version_then_garbage : script :=
  mkScript ("'foo: x -> y'" ++ nl ++ "garbage", None) (80, 24, None)%Z ([], None) [].

(* a listing of two lines that do not match the pattern *)
Definition two_bad_lines : script :=
  mkScript ("bad1" ++ nl ++ "bad2", None) (80, 24, None)%Z ([], None) [].

(* listings of one record, and of nothing but the sentinel *)
Definition one_line : script :=
  mkScript ("'foo: 1.2.3 -> 1.3.0'", None) (80, 24, None)%Z ([], None) [].
Definition one_line_and_sentinel : script :=
  mkScript ("''" ++ nl ++ "'foo: 1.2.3 -> 1.3.0'" ++ nl ++ nl, None)
           (80, 24, None)%Z ([], None) [].
Definition sentinel_only : script :=
  mkScript ("''" ++ nl, None) (80, 24, None)%Z ([], None) [].

(* a world whose terminal cannot tell its size *)
Definition no_terminal : script :=
  mkScript ("", None)
           (-1, -1, Some (LibError "inappropriate ioctl for device"))%Z
           ([], None) [].

(** ** The vocabulary of the properties *)

(** *** Fields that differ, and what [formatTo] writes for each field *)

Definition differs_N (a b : N) : bool := negb (a =? b)%N.
Definition differs_s (a b : string) : bool := negb (String.eqb a b).

Definition green : string -> chunk := Colored changedColor.

(** What [formatTo] writes for each field, without the flag [same]: a field
    after the major one is written plain exactly when it and every field
    tested before it are unchanged. *)
Definition minor_part (m : GoModule) : list chunk :=
  if differs_N (Minor (from m)) (Minor (to m))
  then [green (fmt_d (Minor (to m))); green "."]
  else [Plain (fmt_d (Minor (to m)) ++ ".")].

Definition patch_part (m : GoModule) : list chunk :=
  if differs_N (Minor (from m)) (Minor (to m))
     || differs_N (Patch (from m)) (Patch (to m))
  then [green (fmt_d (Patch (to m)))]
  else [Plain (fmt_d (Patch (to m)))].

Definition prerelease_part (m : GoModule) : list chunk :=
  if String.eqb (Prerelease (to m)) "" then []
  else if differs_N (Minor (from m)) (Minor (to m))
          || differs_N (Patch (from m)) (Patch (to m))
          || differs_s (Prerelease (from m)) (Prerelease (to m))
       then [Plain "-"; green (Prerelease (to m))]
       else [Plain ("-" ++ Prerelease (to m))].

Definition metadata_part (m : GoModule) : list chunk :=
  if String.eqb (Metadata (to m)) "" then []
  else [green "+"; green (Metadata (to m))].

(** *** Lines that match the pattern *)

(** The number of groups of a pattern. *)
Fixpoint groups (p : regexp.Regexp) : nat :=
  match p with
  | [] => O
  | regexp.Lit _ :: p' => groups p'
  | regexp.AnyPlus :: p' => S (groups p')
  end.

(** A text a group can hold: not empty and without a line feed. *)
Definition group_text (g : string) : Prop :=
  g <> "" /\ regexp.dot_run g = String.length g.

(** The text [m] is an instance of the pattern, its groups holding [gs]. *)
Inductive denotes : regexp.Regexp -> string -> list string -> Prop :=
| denotes_nil : denotes [] "" []
| denotes_lit c p m gs :
    denotes p m gs -> denotes (regexp.Lit c :: p) (String c m) gs
| denotes_group p g m gs :
    group_text g -> denotes p m gs ->
    denotes (regexp.AnyPlus :: p) (g ++ m) (g :: gs).

(** The line holds, somewhere, a quote, a name, [: ], a text, [ -> ], a text
    and a quote, the three texts fit for a group. *)
Definition matches_pattern (x : string) : Prop :=
  exists a n f t b,
    x = a ++ ("'" ++ n ++ ": " ++ f ++ " -> " ++ t ++ "'") ++ b /\
    group_text n /\ group_text f /\ group_text t.

(** *** The lines of a listing *)

Definition skipped (x : string) : bool := String.eqb x "''" || String.eqb x "".

(** The lines of a listing that are neither empty nor the sentinel. *)
Definition kept (out : string) : list string :=
  filter (fun x => negb (skipped x)) (strings.Split out LF).

(** [strings.Join(pieces, sep)] for a separator of one byte. *)
Fixpoint Join (pieces : list string) (sep : ascii) : string :=
  match pieces with
  | [] => ""
  | [piece] => piece
  | piece :: pieces' => piece ++ String sep (Join pieces' sep)
  end.

Section DiscoverLines.

Variable NewVersion : string -> Version + error.

(** The line [x] matches the pattern, and the texts of its second and third
    group are the versions of the record [d], whose name is the first. *)
Definition parses (x : string) (d : GoModule) : Prop :=
  exists whole f t,
    regexp.FindStringSubmatch re x = [whole; name d; f; t] /\
    NewVersion f = inl (from d) /\ NewVersion t = inl (to d).

(** What a line that is not skipped brings: a record or the error that
    ends the discovery. *)
Definition line_module (x : string) : GoModule + error :=
  match regexp.FindStringSubmatch re x with
  | [_; n; f; t] =>
      match NewVersion f with
      | inr err => inr err
      | inl fromversion =>
          match NewVersion t with
          | inr err => inr err
          | inl toversion => inl (mkModule n fromversion toversion)
          end
      end
  | _ => inr (Errorf ("Couldn't parse module " ++ x))
  end.

(** The result of the loop of [discover], without the printing. *)
Fixpoint discover_lines (split : list string) (modules : list GoModule)
  : list GoModule * option error :=
  match split with
  | [] => (modules, None)
  | x :: split' =>
      if skipped x then discover_lines split' modules
      else match line_module x with
           | inl d => discover_lines split' (modules ++ [d])%list
           | inr err => ([], Some err)
           end
  end.

End DiscoverLines.

(** *** Widths and traces *)

(** The greatest of a list of lengths, 0 for no length at all. *)
Definition maximum (l : list Z) : Z := fold_right Z.max 0%Z l.

(** The commands run in a trace, in order. *)
Definition commands (tr : list event) : list (list string) :=
  flat_map (fun e => match e with EvExec argv _ _ => [argv] | _ => [] end) tr.

(** The texts printed on standard output in a trace, in order. *)
Definition printed (tr : list event) : list string :=
  flat_map (fun e => match e with EvStdout s => [s] | _ => [] end) tr.

(** The report due for each [go get] of a trace that failed, in order. *)
Definition reports_due (tr : list event) : list string :=
  flat_map
    (fun e =>
       match e with
       | EvExec argv out (Some _) =>
           ["Error while updating " ++ nth 2 argv "" ++ ": " ++ out ++ nl]
       | _ => []
       end) tr.

(** ** The vocabulary of the further properties *)

(** The text of a piece, without its colour. *)
Definition chunk_text (c : chunk) : string :=
  match c with Plain s => s | Colored _ s => s end.

(** The text of a buffer as it shows on the screen: the pieces without
    their colours. *)
Definition Buffer_text (buf : list chunk) : string :=
  fold_right (fun c acc => chunk_text c ++ acc) "" buf.

(** All bytes of a text satisfy [p]. *)
Fixpoint all_bytes (p : ascii -> bool) (s : string) : bool :=
  match s with
  | "" => true
  | String c s' => p c && all_bytes p s'
  end.

(** The calls to collaborators in a trace, in order: everything but the
    texts written on the screen and in the log. *)
Definition is_call (e : event) : bool :=
  match e with
  | EvExec _ _ _ | EvGetSize _ _ _ | EvAskOne _ _ _ _ => true
  | EvStdout _ | EvColorOutput _ | EvLog _ => false
  end.

Definition calls (tr : list event) : list event := filter is_call tr.

(** The line of the listing holds, somewhere, the quoted text
    ['name: f -> t'] whose three parts are fit for a group, and [f] and [t]
    parse as the two versions of the record. *)
Definition line_of_record (NewVersion : string -> Version + error)
           (x : string) (d : GoModule) : Prop :=
  exists a f t b,
    x = a ++ ("'" ++ name d ++ ": " ++ f ++ " -> " ++ t ++ "'") ++ b /\
    group_text (name d) /\ group_text f /\ group_text t /\
    NewVersion f = inl (from d) /\ NewVersion t = inl (to d).

(** What follows the opening quote of a line ['name: from -> to'], and what
    follows in it the name and its separator, and the first version text
    and its separator. *)
Definition after_to (t : string) : string := t ++ String "'" "".
Definition after_from (f t : string) : string :=
  f ++ String " " (String "-" (String ">" (String " " (after_to t)))).
Definition after_name (n f t : string) : string :=
  n ++ String ":" (String " " (after_from f t)).

(** A byte that is neither a space nor a colon. *)
Definition not_space_colon (c : ascii) : bool :=
  negb (Ascii.eqb c " ") && negb (Ascii.eqb c ":").

(** The options that [choose] hands to the widget when the terminal reports
    the width [termWidth]. *)
Definition choose_asks (NoColor : bool) (termWidth : Z) (modules : list GoModule)
  : list string :=
  let '(maxName, maxFrom, maxTo) := choose_max modules in
  choose_options NoColor termWidth maxName maxFrom maxTo modules.

(** [m] is the record at the index [x] of [modules]. *)
Definition at_index (modules : list GoModule) (x : Z) (m : GoModule) : Prop :=
  (0 <= x)%Z /\ nth_error modules (Z.to_nat x) = Some m.

(** [x] is no index of [modules]. *)
Definition out_of_range (modules : list GoModule) (x : Z) : Prop :=
  (x < 0)%Z \/ (Z.of_nat (List.length modules) <= x)%Z.

(** A line of the listing ends the discovery: it is neither empty nor the
    sentinel, and it gives no record. *)
Definition fatal_line (NewVersion : string -> Version + error) (x : string) : Prop :=
  x <> "''" /\ x <> "" /\ forall d, ~ parses NewVersion x d.

(* a world whose operator interrupts the selection *)
Definition interrupted : script :=
  mkScript ("'foo: 1.2.3 -> 1.3.0'" ++ nl, None) (80, 24, None)%Z
           ([], Some InterruptErr) [].

(* a world with three updates of which the operator chooses the third and
   the first, and in which [go get b] would fail *)
Definition picks_c_and_a : script :=
  mkScript ("'a: 1.0.0 -> 1.0.1'" ++ nl ++ "'b: 1.0.0 -> 1.1.0'" ++ nl
            ++ "'c: 1.0.0 -> 1.0.0-rc'" ++ nl, None)
           (80, 24, None)%Z ([2; 0]%Z, None) ["b"].

(* a world whose listing command fails *)
Definition listing_fails : script :=
  mkScript ("", Some (LibError "exit status 1")) (80, 24, None)%Z ([], None) [].

(** What [choose] adds to the trace up to the answer of the widget. *)
Definition choose_prefix (NoColor : bool) (modules : list GoModule) (pageSize : Z)
           (width height : Z) (err : option error)
           (choice : list Z) (err' : option error) : list event :=
  (EvGetSize width height err
   :: match err with
      | Some e => [EvStdout ("Error while getting terminal size " ++ Error e ++ nl)]
      | None => []
      end
   ++ [EvAskOne (choose_asks NoColor width modules) pageSize choice err'])%list.

(** * Properties *)

(** ** The colour of the name *)

(** The three tests of [formatName] read from the last to the first: the
    last test that succeeds gives the colour. *)
Lemma formatName_c_last_match (m : GoModule) :
  formatName_c m =
    if differs_s (Prerelease (from m)) (Prerelease (to m)) then FgRed
    else if differs_N (Patch (from m)) (Patch (to m)) then FgGreen
    else if differs_N (Minor (from m)) (Minor (to m)) then FgYellow
    else FgWhite.
Proof.
  unfold formatName_c, differs_N, differs_s.
  destruct (String.eqb _ _), (N.eqb (Patch _) _), (N.eqb (Minor _) _); reflexivity.
Qed.

Lemma differs_N_true (a b : N) : a <> b -> differs_N a b = true.
Proof. intros H. unfold differs_N. apply N.eqb_neq in H. now rewrite H. Qed.

Lemma differs_N_false (a b : N) : a = b -> differs_N a b = false.
Proof. intros ->. unfold differs_N. now rewrite N.eqb_refl. Qed.

Lemma differs_s_true (a b : string) : a <> b -> differs_s a b = true.
Proof. intros H. unfold differs_s. apply String.eqb_neq in H. now rewrite H. Qed.

Lemma differs_s_false (a b : string) : a = b -> differs_s a b = false.
Proof. intros ->. unfold differs_s. now rewrite String.eqb_refl. Qed.

(** The escape sequences of two colours differ, so with colours switched on
    the colour of a text can be read back from the text. *)
Lemma SprintFunc_inj_color (a b : Attribute) (s t : string) :
  SprintFunc false a s = SprintFunc false b t -> a = b.
Proof.
  unfold SprintFunc. destruct a, b; simpl; intros H; try reflexivity; discriminate H.
Qed.

(** C1, as the claim states it, fails: 1.2.3 -> 1.3.3-rc differs in the minor
    field and in the prerelease, and the name is not given the colour of a
    minor change. *)
Lemma formatName_minor_and_prerelease_is_not_minor :
  Minor (from minor_and_pre) <> Minor (to minor_and_pre) /\
  Prerelease (from minor_and_pre) <> Prerelease (to minor_and_pre) /\
  formatName_c minor_and_pre <> minorColor /\
  formatName false minor_and_pre 3
    <> SprintFunc false minorColor (padRight (name minor_and_pre) 3).
Proof.
  repeat split; discriminate.
Qed.

(** C1, amended: when both the minor field and the prerelease differ, the
    name gets the colour of a prerelease change; the three tests run one
    after the other, each may overwrite the colour, and the last one that
    succeeds decides. *)
Theorem formatName_minor_and_prerelease
    (NoColor : bool) (m : GoModule) (length : Z) :
  Minor (from m) <> Minor (to m) ->
  Prerelease (from m) <> Prerelease (to m) ->
  formatName_c m = prereleaseColor /\
  formatName NoColor m length
    = SprintFunc NoColor prereleaseColor (padRight (name m) length) /\
  formatName_c m =
    (if differs_s (Prerelease (from m)) (Prerelease (to m)) then prereleaseColor
     else if differs_N (Patch (from m)) (Patch (to m)) then patchColor
     else if differs_N (Minor (from m)) (Minor (to m)) then minorColor
     else unstyledColor).
Proof.
  intros _ Hpre.
  assert (Hc : formatName_c m = prereleaseColor).
  { rewrite formatName_c_last_match, (differs_s_true _ _ Hpre). reflexivity. }
  split; [exact Hc|]. split.
  - unfold formatName. now rewrite Hc.
  - apply formatName_c_last_match.
Qed.

Lemma formatName_minor_and_prerelease_witness :
  formatName_c minor_and_pre = prereleaseColor /\
  formatName false minor_and_pre 3
    = SprintFunc false prereleaseColor (padRight (name minor_and_pre) 3) /\
  formatName_c minor_and_pre =
    (if differs_s (Prerelease (from minor_and_pre)) (Prerelease (to minor_and_pre))
     then prereleaseColor
     else if differs_N (Patch (from minor_and_pre)) (Patch (to minor_and_pre))
     then patchColor
     else if differs_N (Minor (from minor_and_pre)) (Minor (to minor_and_pre))
     then minorColor
     else unstyledColor).
Proof.
  apply (formatName_minor_and_prerelease false minor_and_pre 3); discriminate.
Defined.

(** C2, as the claim states it, fails: for 1.2.3-beta -> 1.3.0-beta the patch
    field differs too (3 against 0), its test comes after the test of the
    minor field, and the name is not given the colour of a minor change. *)
Lemma formatName_beta_to_beta_is_not_minor :
  semver.parseVersion "1.2.3-beta" = inl (from beta_to_beta) /\
  semver.parseVersion "1.3.0-beta" = inl (to beta_to_beta) /\
  formatName_c beta_to_beta <> minorColor /\
  formatName false beta_to_beta 3
    <> SprintFunc false minorColor (padRight (name beta_to_beta) 3).
Proof.
  repeat split; discriminate.
Qed.

(** C2, amended: for 1.2.3-beta -> 1.3.0-beta the name gets the colour of a
    patch change, which is neither that of a minor change nor that of a
    prerelease change; for 1.2.3 -> 1.2.3-rc it gets the colour of a
    prerelease change. *)
Theorem formatName_precedence_scenario :
  semver.parseVersion "1.2.3-beta" = inl (from beta_to_beta) /\
  semver.parseVersion "1.3.0-beta" = inl (to beta_to_beta) /\
  formatName_c beta_to_beta = patchColor /\
  patchColor <> minorColor /\ patchColor <> prereleaseColor /\
  (forall NoColor length,
     formatName NoColor beta_to_beta length
       = SprintFunc NoColor patchColor (padRight "foo" length)) /\
  semver.parseVersion "1.2.3" = inl (from release_to_rc) /\
  semver.parseVersion "1.2.3-rc" = inl (to release_to_rc) /\
  formatName_c release_to_rc = prereleaseColor /\
  (forall NoColor length,
     formatName NoColor release_to_rc length
       = SprintFunc NoColor prereleaseColor (padRight "foo" length)).
Proof.
  repeat split; try discriminate.
Qed.

(** C10: when the minor field, the patch field and the prerelease are equal,
    the name keeps the colour it starts with, whatever the major fields are:
    an upgrade of the major field alone is not marked. *)
Theorem formatName_major_only
    (NoColor : bool) (m : GoModule) (length : Z) :
  Minor (from m) = Minor (to m) ->
  Patch (from m) = Patch (to m) ->
  Prerelease (from m) = Prerelease (to m) ->
  formatName_c m = unstyledColor /\
  formatName NoColor m length
    = SprintFunc NoColor unstyledColor (padRight (name m) length).
Proof.
  intros Hmi Hpa Hpre.
  assert (Hc : formatName_c m = unstyledColor).
  { rewrite formatName_c_last_match, (differs_s_false _ _ Hpre),
      (differs_N_false _ _ Hpa), (differs_N_false _ _ Hmi). reflexivity. }
  split; [exact Hc|]. unfold formatName. now rewrite Hc.
Qed.

Lemma formatName_major_only_witness :
  Major (from major_only) <> Major (to major_only) /\
  formatName_c major_only = unstyledColor /\
  formatName false major_only 3
    = SprintFunc false unstyledColor (padRight (name major_only) 3).
Proof.
  split; [discriminate|].
  apply (formatName_major_only false major_only 3); reflexivity.
Defined.

(** ** The highlighted fields of the new version *)

Lemma formatTo_buf_parts (m : GoModule) :
  formatTo_buf m =
    Plain (fmt_d (Major (to m)) ++ ".")
      :: minor_part m ++ patch_part m ++ prerelease_part m ++ metadata_part m.
Proof.
  unfold formatTo_buf, minor_part, patch_part, prerelease_part, metadata_part,
    differs_N, differs_s, green, changedColor.
  destruct (N.eqb (Minor _) _), (N.eqb (Patch _) _),
    (String.eqb (Prerelease (to m)) ""), (String.eqb (Prerelease (from m)) _),
    (String.eqb (Metadata (to m)) ""); reflexivity.
Qed.

Lemma Buffer_String_app (NoColor : bool) (a b : list chunk) :
  Buffer_String NoColor (a ++ b) = Buffer_String NoColor a ++ Buffer_String NoColor b.
Proof.
  induction a as [|c a IH]; simpl; [reflexivity|].
  rewrite IH. unfold Buffer_String. simpl.
  generalize (chunk_String NoColor c). intros s.
  induction s as [|x s IHs]; simpl; [reflexivity| now rewrite IHs].
Qed.

(** C3, as the claim states it, fails: 1.0.0 -> 2.0.0 differs in the major
    field, and nothing in the text written for the new version is
    highlighted, the major field included. *)
Lemma formatTo_major_is_not_highlighted :
  Major (from major_only) <> Major (to major_only) /\
  formatTo_buf major_only = [Plain "2."; Plain "0."; Plain "0"] /\
  forallb isPlain (formatTo_buf major_only) = true /\
  formatTo false major_only = "2.0.0".
Proof.
  repeat split; discriminate.
Qed.

(** C3, amended: [formatTo] writes the major field plain whether or not it
    differs; the minor field is highlighted exactly when it differs; the
    patch field exactly when the minor or the patch field differs; a
    prerelease that is present exactly when the minor field, the patch field
    or the prerelease differs; build metadata that is present always.  (A
    part holds a highlighted piece exactly when [forallb isPlain] is false
    on it; the part of an absent prerelease or of absent metadata is
    empty.) *)
Theorem formatTo_fields (NoColor : bool) (m : GoModule) :
  formatTo_buf m =
    Plain (fmt_d (Major (to m)) ++ ".")
      :: minor_part m ++ patch_part m ++ prerelease_part m ++ metadata_part m /\
  formatTo NoColor m =
    (fmt_d (Major (to m)) ++ ".")
      ++ Buffer_String NoColor (minor_part m)
      ++ Buffer_String NoColor (patch_part m)
      ++ Buffer_String NoColor (prerelease_part m)
      ++ Buffer_String NoColor (metadata_part m) /\
  (forallb isPlain (minor_part m)
     = negb (differs_N (Minor (from m)) (Minor (to m)))) /\
  (forallb isPlain (patch_part m)
     = negb (differs_N (Minor (from m)) (Minor (to m))
             || differs_N (Patch (from m)) (Patch (to m)))) /\
  (forallb isPlain (prerelease_part m)
     = String.eqb (Prerelease (to m)) ""
       || negb (differs_N (Minor (from m)) (Minor (to m))
                || differs_N (Patch (from m)) (Patch (to m))
                || differs_s (Prerelease (from m)) (Prerelease (to m)))) /\
  (forallb isPlain (metadata_part m) = String.eqb (Metadata (to m)) "").
Proof.
  split; [apply formatTo_buf_parts|]. split.
  { unfold formatTo. rewrite formatTo_buf_parts.
    change (Plain ?s :: ?l) with ([Plain s] ++ l)%list.
    rewrite !Buffer_String_app.
    f_equal. simpl. generalize (fmt_d (Major (to m)) ++ "."). intros s.
    induction s as [|c s IH]; simpl; [reflexivity | now rewrite IH]. }
  split; [|split; [|split]].
  - unfold minor_part. destruct (differs_N (Minor _) _); reflexivity.
  - unfold patch_part.
    destruct (differs_N (Minor _) _), (differs_N (Patch _) _); reflexivity.
  - unfold prerelease_part.
    destruct (String.eqb (Prerelease (to m)) ""), (differs_N (Minor _) _),
      (differs_N (Patch _) _), (differs_s _ _); reflexivity.
  - unfold metadata_part. destruct (String.eqb (Metadata (to m)) ""); reflexivity.
Qed.

(** C4, as the claim states it, fails: 1.2.3 -> 1.3.3 differs in the minor
    field and not in the patch field, and the patch field is highlighted. *)
Lemma formatTo_equal_patch_is_highlighted :
  Minor (from minor_only) <> Minor (to minor_only) /\
  Patch (from minor_only) = Patch (to minor_only) /\
  formatTo_buf minor_only = [Plain "1."; green "3"; green "."; green "3"] /\
  nth 3 (formatTo_buf minor_only) (Plain "") <> Plain (fmt_d (Patch (to minor_only))).
Proof.
  repeat split; discriminate.
Qed.

(** C4, amended: once the minor field has been marked changed, the fields
    after it are highlighted although they are equal: when the minor field
    differs and the patch field is equal, the patch field is written in the
    colour of a change, and so is a prerelease that is present. *)
Theorem formatTo_after_changed_minor (m : GoModule) :
  Minor (from m) <> Minor (to m) ->
  Patch (from m) = Patch (to m) ->
  formatTo_buf m =
    ([Plain (fmt_d (Major (to m)) ++ "."); green (fmt_d (Minor (to m))); green ".";
      green (fmt_d (Patch (to m)))]
     ++ (if String.eqb (Prerelease (to m)) "" then []
         else [Plain "-"; green (Prerelease (to m))])
     ++ metadata_part m)%list.
Proof.
  intros Hmi _. rewrite formatTo_buf_parts.
  unfold minor_part, patch_part, prerelease_part.
  rewrite (differs_N_true _ _ Hmi). reflexivity.
Qed.

Lemma formatTo_after_changed_minor_witness :
  formatTo_buf minor_only =
    ([Plain (fmt_d (Major (to minor_only)) ++ ".");
      green (fmt_d (Minor (to minor_only))); green ".";
      green (fmt_d (Patch (to minor_only)))]
     ++ (if String.eqb (Prerelease (to minor_only)) "" then []
         else [Plain "-"; green (Prerelease (to minor_only))])
     ++ metadata_part minor_only)%list.
Proof.
  apply (formatTo_after_changed_minor minor_only); [discriminate | reflexivity].
Defined.

(** C5, as the claim states it, fails: with the same version 1.0.0+build on
    both sides, the build metadata and its plus sign are highlighted. *)
Lemma formatTo_same_version_highlights_build :
  from same_with_build = to same_with_build /\
  formatTo_buf same_with_build
    = [Plain "1."; Plain "0."; Plain "0"; green "+"; green "build"] /\
  forallb isPlain (formatTo_buf same_with_build) = false.
Proof.
  repeat split.
Qed.

(** C5, amended: when the two versions of a record are equal, [formatTo]
    highlights nothing but the build metadata, which it highlights whenever
    there is some; so nothing at all is highlighted exactly when the version
    has no build metadata. *)
Theorem formatTo_same_version (m : GoModule) :
  from m = to m ->
  formatTo_buf m =
    ([Plain (fmt_d (Major (to m)) ++ "."); Plain (fmt_d (Minor (to m)) ++ ".");
      Plain (fmt_d (Patch (to m)))]
     ++ (if String.eqb (Prerelease (to m)) "" then []
         else [Plain ("-" ++ Prerelease (to m))])
     ++ (if String.eqb (Metadata (to m)) "" then []
         else [green "+"; green (Metadata (to m))]))%list /\
  forallb isPlain (formatTo_buf m) = String.eqb (Metadata (to m)) "".
Proof.
  intros Heq.
  assert (H : formatTo_buf m =
    ([Plain (fmt_d (Major (to m)) ++ "."); Plain (fmt_d (Minor (to m)) ++ ".");
      Plain (fmt_d (Patch (to m)))]
     ++ (if String.eqb (Prerelease (to m)) "" then []
         else [Plain ("-" ++ Prerelease (to m))])
     ++ (if String.eqb (Metadata (to m)) "" then []
         else [green "+"; green (Metadata (to m))]))%list).
  { rewrite formatTo_buf_parts.
    unfold minor_part, patch_part, prerelease_part, metadata_part.
    rewrite Heq, !differs_N_false, differs_s_false by reflexivity. reflexivity. }
  split; [exact H|]. rewrite H.
  destruct (String.eqb (Prerelease (to m)) ""), (String.eqb (Metadata (to m)) "");
    reflexivity.
Qed.

Lemma formatTo_same_version_witness :
  formatTo_buf same_with_build =
    ([Plain (fmt_d (Major (to same_with_build)) ++ ".");
      Plain (fmt_d (Minor (to same_with_build)) ++ ".");
      Plain (fmt_d (Patch (to same_with_build)))]
     ++ (if String.eqb (Prerelease (to same_with_build)) "" then []
         else [Plain ("-" ++ Prerelease (to same_with_build))])
     ++ (if String.eqb (Metadata (to same_with_build)) "" then []
         else [green "+"; green (Metadata (to same_with_build))]))%list /\
  forallb isPlain (formatTo_buf same_with_build)
    = String.eqb (Metadata (to same_with_build)) "".
Proof.
  apply (formatTo_same_version same_with_build). reflexivity.
Defined.

(** ** Matching a line *)

Lemma try_lengths_groups (k : string -> option (string * list string)) (g : nat) :
  (forall s m gs, k s = Some (m, gs) -> List.length gs = g) ->
  forall n s m gs,
    regexp.try_lengths k s n = Some (m, gs) -> List.length gs = S g.
Proof.
  intros Hk n. induction n as [|n IH]; intros s m gs H;
    cbn [regexp.try_lengths] in H.
  - discriminate H.
  - destruct (k (strings.drop (S n) s)) as [[m' gs']|] eqn:Hrest.
    + inversion H; subst. simpl. f_equal. eapply Hk; eassumption.
    + eapply IH; eassumption.
Qed.

Lemma match_here_groups (p : regexp.Regexp) :
  forall s m gs, regexp.match_here p s = Some (m, gs) -> List.length gs = groups p.
Proof.
  induction p as [|[c|] p IH]; intros s m gs H; simpl in H.
  - inversion H; reflexivity.
  - destruct s as [|c' s]; [discriminate H|].
    destruct (Ascii.eqb c c'); [|discriminate H].
    destruct (regexp.match_here p s) as [[m' gs']|] eqn:Hrest; [|discriminate H].
    inversion H; subst. simpl. eapply IH; eassumption.
  - simpl. eapply try_lengths_groups; [exact IH | exact H].
Qed.

(** [FindStringSubmatch] answers [nil] or the whole match and one text for
    every group. *)
Lemma FindStringSubmatch_length (p : regexp.Regexp) (s : string) :
  regexp.FindStringSubmatch p s = [] \/
  List.length (regexp.FindStringSubmatch p s) = S (groups p).
Proof.
  induction s as [|c s IH]; simpl.
  - destruct (regexp.match_here p "") as [[m gs]|] eqn:H; [right|left; reflexivity].
    simpl. f_equal. eapply match_here_groups; eassumption.
  - destruct (regexp.match_here p (String c s)) as [[m gs]|] eqn:H; [right|exact IH].
    simpl. f_equal. eapply match_here_groups; eassumption.
Qed.

(** For the pattern of the program: no match, or exactly four texts. *)
Lemma FindStringSubmatch_re (x : string) :
  regexp.FindStringSubmatch re x = [] \/
  exists whole n f t, regexp.FindStringSubmatch re x = [whole; n; f; t].
Proof.
  destruct (FindStringSubmatch_length re x) as [H|H]; [left; exact H|right].
  change (groups re) with 3%nat in H.
  destruct (regexp.FindStringSubmatch re x) as [|whole [|n [|f [|t [|? ?]]]]];
    try discriminate H.
  now exists whole, n, f, t.
Qed.

(** What the matcher decides. *)

Lemma append_assoc (a b c : string) : (a ++ b) ++ c = a ++ (b ++ c).
Proof. induction a as [|x a IH]; simpl; [reflexivity | now rewrite IH]. Qed.

Lemma take_drop (n : nat) (s : string) : strings.take n s ++ strings.drop n s = s.
Proof.
  revert s. induction n as [|n IH]; intros [|c s]; simpl; try reflexivity.
  now rewrite IH.
Qed.

Lemma drop_append (g s : string) : strings.drop (String.length g) (g ++ s) = s.
Proof. induction g as [|c g IH]; simpl; [now destruct s | exact IH]. Qed.

Lemma dot_run_take (n : nat) (s : string) :
  (n <= regexp.dot_run s)%nat ->
  regexp.dot_run (strings.take n s) = String.length (strings.take n s) /\
  String.length (strings.take n s) = n.
Proof.
  revert s. induction n as [|n IH]; intros [|c s]; simpl; try (intros; split; reflexivity || lia).
  destruct (Ascii.eqb c LF); [lia|]. intros H.
  destruct (IH s) as [H1 H2]; [lia|]. split; lia.
Qed.

Lemma dot_run_append (g s : string) :
  regexp.dot_run g = String.length g ->
  (String.length g <= regexp.dot_run (g ++ s))%nat.
Proof.
  induction g as [|c g IH]; simpl; [lia|].
  destruct (Ascii.eqb c LF).
  - discriminate.
  - intros H. injection H as H. specialize (IH H). lia.
Qed.

(** A match found at the head of [s] is an instance of the pattern and a
    prefix of [s]. *)
Lemma try_lengths_sound (k : string -> option (string * list string)) (p : regexp.Regexp) :
  (forall s m gs, k s = Some (m, gs) -> denotes p m gs /\ exists rest, s = m ++ rest) ->
  forall n s m gs,
    (n <= regexp.dot_run s)%nat ->
    regexp.try_lengths k s n = Some (m, gs) ->
    denotes (regexp.AnyPlus :: p) m gs /\ exists rest, s = m ++ rest.
Proof.
  intros Hk n. induction n as [|n IH]; intros s m gs Hn H;
    cbn [regexp.try_lengths] in H; [discriminate H|].
  destruct (k (strings.drop (S n) s)) as [[m' gs']|] eqn:Hrest.
  - pose proof (dot_run_take (S n) s Hn) as [Hrun Hlen].
    pose proof (take_drop (S n) s) as Htd.
    destruct (Hk _ _ _ Hrest) as [Hd (rest & Hr)].
    remember (strings.take (S n) s) as g eqn:Hg. clear Hg.
    inversion H; subst. split.
    + constructor; [|exact Hd]. split; [|exact Hrun].
      intros Hempty. rewrite Hempty in Hlen. discriminate Hlen.
    + exists rest. rewrite append_assoc, <- Hr. symmetry. exact Htd.
  - apply IH; [lia | exact H].
Qed.

Lemma match_here_sound (p : regexp.Regexp) :
  forall s m gs,
    regexp.match_here p s = Some (m, gs) ->
    denotes p m gs /\ exists rest, s = m ++ rest.
Proof.
  induction p as [|[c|] p IH]; intros s m gs H; cbn [regexp.match_here] in H.
  - inversion H; subst. split; [constructor | now exists s].
  - destruct s as [|c' s]; [discriminate H|].
    destruct (Ascii.eqb c c') eqn:Hc; [|discriminate H].
    apply Ascii.eqb_eq in Hc. subst c'.
    destruct (regexp.match_here p s) as [[m' gs']|] eqn:Hrest; [|discriminate H].
    inversion H; subst. destruct (IH _ _ _ Hrest) as [Hd (rest & ->)].
    split; [now constructor | now exists rest].
  - eapply try_lengths_sound; [exact IH | | exact H]. lia.
Qed.

(** The greedy loop succeeds as soon as one of the lengths it tries does. *)
Lemma try_lengths_complete (k : string -> option (string * list string)) :
  forall n s j,
    (1 <= j <= n)%nat -> k (strings.drop j s) <> None ->
    regexp.try_lengths k s n <> None.
Proof.
  induction n as [|n IH]; intros s j Hj Hk; [lia|].
  cbn [regexp.try_lengths].
  destruct (k (strings.drop (S n) s)) as [[m gs]|] eqn:Hrest; [discriminate|].
  apply (IH s j); [|exact Hk].
  destruct (Nat.eq_dec j (S n)) as [->|]; [congruence | lia].
Qed.

Lemma match_here_complete (p : regexp.Regexp) (m : string) (gs : list string) :
  denotes p m gs -> forall rest, regexp.match_here p (m ++ rest) <> None.
Proof.
  induction 1 as [|c p m gs _ IH|p g m gs [Hne Hrun] _ IH]; intros rest;
    cbn [regexp.match_here].
  - discriminate.
  - simpl. rewrite Ascii.eqb_refl. specialize (IH rest).
    destruct (regexp.match_here p (m ++ rest)) as [[m' gs']|]; [discriminate | congruence].
  - rewrite append_assoc. apply (try_lengths_complete _ _ _ (String.length g)).
    + split; [destruct g; [congruence | simpl; lia] | now apply dot_run_append].
    + rewrite drop_append. apply IH.
Qed.

(** [FindStringSubmatch] finds a match exactly when some part of the text is
    an instance of the pattern, and what it returns is such a part. *)
Lemma FindStringSubmatch_sound (p : regexp.Regexp) (s m : string) (gs : list string) :
  regexp.FindStringSubmatch p s = m :: gs ->
  denotes p m gs /\ exists a b, s = a ++ m ++ b.
Proof.
  induction s as [|c s IH]; cbn [regexp.FindStringSubmatch].
  - destruct (regexp.match_here p "") as [[m' gs']|] eqn:H; [|discriminate].
    intros Heq. inversion Heq; subst.
    destruct (match_here_sound _ _ _ _ H) as [Hd (rest & Hr)].
    split; [exact Hd | now exists "", rest].
  - destruct (regexp.match_here p (String c s)) as [[m' gs']|] eqn:H.
    + intros Heq. inversion Heq; subst.
      destruct (match_here_sound _ _ _ _ H) as [Hd (rest & Hr)].
      split; [exact Hd | now exists "", rest].
    + intros Heq. destruct (IH Heq) as [Hd (a & b & ->)].
      split; [exact Hd | now exists (String c a), b].
Qed.

Lemma FindStringSubmatch_complete (p : regexp.Regexp) (a m b : string) (gs : list string) :
  denotes p m gs -> regexp.FindStringSubmatch p (a ++ m ++ b) <> [].
Proof.
  intros Hd. induction a as [|c a IH].
  - simpl. pose proof (match_here_complete p m gs Hd b) as H.
    destruct (m ++ b) as [|c s]; cbn [regexp.FindStringSubmatch];
      destruct (regexp.match_here p _) as [[m' gs']|]; congruence.
  - simpl. cbn [regexp.FindStringSubmatch].
    destruct (regexp.match_here p _) as [[m' gs']|]; [discriminate | exact IH].
Qed.

Lemma denotes_re (m : string) (gs : list string) :
  denotes re m gs <->
  exists n f t,
    gs = [n; f; t] /\ m = "'" ++ n ++ ": " ++ f ++ " -> " ++ t ++ "'" /\
    group_text n /\ group_text f /\ group_text t.
Proof.
  split.
  - intros H. unfold re in H. cbn in H.
    repeat match goal with
           | H : denotes (_ :: _) _ _ |- _ => inversion H; clear H; subst
           | H : denotes [] _ _ |- _ => inversion H; clear H; subst
           end.
    eexists _, _, _. split; [reflexivity|]. split; [reflexivity | auto].
  - intros (n & f & t & -> & -> & Hn & Hf & Ht).
    unfold re. cbn.
    change ("'" ++ n ++ ": " ++ f ++ " -> " ++ t ++ "'")
      with (String "'" (n ++ String ":" (String " " (f ++ String " " (String "-" (String ">" (String " " (t ++ String "'" "")))))))).
    repeat (first [apply denotes_lit | apply denotes_group; [assumption|] | apply denotes_nil]).
Qed.

(** The matcher of the program finds nothing exactly on the lines that do
    not match the pattern. *)
Lemma FindStringSubmatch_re_matches (x : string) :
  regexp.FindStringSubmatch re x <> [] <-> matches_pattern x.
Proof.
  split.
  - intros H. destruct (regexp.FindStringSubmatch re x) as [|m gs] eqn:Hm; [congruence|].
    apply FindStringSubmatch_sound in Hm. destruct Hm as [Hd (a & b & ->)].
    apply denotes_re in Hd. destruct Hd as (n & f & t & -> & -> & Hn & Hf & Ht).
    now exists a, n, f, t, b.
  - intros (a & n & f & t & b & -> & Hn & Hf & Ht).
    apply FindStringSubmatch_complete with (gs := [n; f; t]).
    apply denotes_re. now exists n, f, t.
Qed.

Lemma no_match_iff (x : string) :
  regexp.FindStringSubmatch re x = [] <-> ~ matches_pattern x.
Proof.
  rewrite <- FindStringSubmatch_re_matches.
  destruct (regexp.FindStringSubmatch re x) as [|m gs]; split.
  - intros _ H. now apply H.
  - reflexivity.
  - discriminate.
  - intros H. exfalso. apply H. discriminate.
Qed.

Lemma Split_nonempty (s : string) (sep : ascii) : strings.Split s sep <> [].
Proof.
  destruct s as [|c s]; cbn [strings.Split]; [discriminate|].
  destruct (Ascii.eqb c sep); [discriminate|].
  destruct (strings.Split s sep); discriminate.
Qed.

(** The pieces of [Split], joined by the separator, give the text back. *)
Lemma Join_Split (s : string) (sep : ascii) : Join (strings.Split s sep) sep = s.
Proof.
  induction s as [|c s IH]; [reflexivity|].
  cbn [strings.Split]. pose proof (Split_nonempty s sep) as Hne.
  destruct (strings.Split s sep) as [|piece pieces]; [congruence|].
  destruct (Ascii.eqb c sep) eqn:Hc.
  - apply Ascii.eqb_eq in Hc. subst c.
    change (Join ("" :: piece :: pieces) sep)
      with (String sep (Join (piece :: pieces) sep)).
    now rewrite IH.
  - destruct pieces as [|piece' pieces].
    + simpl in *. now rewrite IH.
    + change (Join (String c piece :: piece' :: pieces) sep)
        with (String c (Join (piece :: piece' :: pieces) sep)).
      now rewrite IH.
Qed.

(** No line of a listing holds a line feed. *)
Lemma Split_lines (s x : string) :
  In x (strings.Split s LF) -> regexp.dot_run x = String.length x.
Proof.
  revert x. induction s as [|c s IH]; intros x; cbn [strings.Split].
  - intros [<-|[]]. reflexivity.
  - destruct (Ascii.eqb c LF) eqn:Hc.
    + intros [<-|H]; [reflexivity | now apply IH].
    + destruct (strings.Split s LF) as [|piece pieces] eqn:Hs.
      * intros [<-|[]]. simpl. now rewrite Hc.
      * intros [<-|H]; [|apply IH; now right].
        simpl. rewrite Hc. f_equal. apply IH. now left.
Qed.

(** ** Discovering the modules *)

Section DiscoverFacts.

Variable NewVersion : string -> Version + error.
Variable World : Type.
Variable sys : System World.

Lemma line_module_parses (x : string) (d : GoModule) :
  line_module NewVersion x = inl d <-> parses NewVersion x d.
Proof.
  unfold line_module, parses. split.
  - destruct (FindStringSubmatch_re x) as [H|(whole & n & f & t & H)]; rewrite H.
    + discriminate.
    + destruct (NewVersion f) as [fv|e] eqn:Hf; [|discriminate].
      destruct (NewVersion t) as [tv|e] eqn:Ht; [|discriminate].
      intros Hd. inversion Hd; subst. simpl. now exists whole, f, t.
  - intros (whole & f & t & H & Hf & Ht). rewrite H, Hf, Ht. now destruct d.
Qed.

Lemma line_module_no_match (x : string) :
  regexp.FindStringSubmatch re x = [] ->
  line_module NewVersion x = inr (Errorf ("Couldn't parse module " ++ x)).
Proof. unfold line_module. now intros ->. Qed.

Lemma verbose_print (verbose : bool) (msg : string) (st : state World) :
  exists tr,
    (if verbose then Printf World msg else ret tt) st
      = (Returns tt, mkState (world st) (trace st ++ tr)).
Proof.
  destruct verbose.
  - eexists [_]. reflexivity.
  - exists []. rewrite app_nil_r. now destruct st.
Qed.

Lemma discover_loop_lines (verbose : bool) (split : list string) :
  forall (modules : list GoModule) (st : state World),
  exists tr,
    discover_loop NewVersion World verbose split modules st
      = (Returns (discover_lines NewVersion split modules),
         mkState (world st) (trace st ++ tr)).
Proof.
  induction split as [|x split IH]; intros modules st;
    cbn [discover_loop discover_lines].
  - exists []. rewrite app_nil_r. now destruct st.
  - unfold skipped. destruct (String.eqb x "''"); [apply IH|].
    destruct (String.eqb x ""); [apply IH|]. cbn [negb andb orb].
    unfold line_module.
    destruct (FindStringSubmatch_re x) as [H|(whole & n & f & t & H)]; rewrite H.
    + change (Z.of_nat (List.length (@nil string)) <? 4)%Z with true. cbv iota.
      exists []. rewrite app_nil_r. now destruct st.
    + change (Z.of_nat (List.length [whole; n; f; t]) <? 4)%Z with false.
      cbv iota. cbn [nth]. unfold bind at 1.
      match goal with |- context [(if verbose then Printf _ ?msg else _) st] =>
        destruct (verbose_print verbose msg st) as (tr0 & Hpr); rewrite Hpr end.
      destruct (NewVersion f) as [fv|e]; [|now exists tr0].
      destruct (NewVersion t) as [tv|e]; [|now exists tr0].
      destruct (IH (modules ++ [mkModule n fv tv])%list
                   (mkState (world st) (trace st ++ tr0))) as (tr & ->).
      exists (tr0 ++ tr)%list. cbn [world trace]. now rewrite app_assoc.
Qed.

(** The accumulated records come first, then one record for every kept
    line, in the order of the lines. *)
Lemma discover_lines_ok (split : list string) :
  forall modules ms,
    discover_lines NewVersion split modules = (ms, None) <->
    exists ds,
      Forall2 (parses NewVersion) (filter (fun x => negb (skipped x)) split) ds /\
      ms = (modules ++ ds)%list.
Proof.
  induction split as [|x split IH]; intros modules ms; simpl.
  - split.
    + intros H. inversion H; subst. exists []. rewrite app_nil_r. split; constructor.
    + intros (ds & Hds & ->). inversion Hds; subst. now rewrite app_nil_r.
  - destruct (skipped x); simpl; [apply IH|].
    destruct (line_module NewVersion x) as [d|e] eqn:Hx.
    + rewrite IH. split.
      * intros (ds & Hds & ->). exists (d :: ds). split.
        -- constructor; [now apply line_module_parses | exact Hds].
        -- now rewrite <- app_assoc.
      * intros (ds & Hds & ->). inversion Hds as [|? d' ? ds' Hd Hds']; subst.
        apply line_module_parses in Hd. rewrite Hx in Hd. inversion Hd; subst.
        exists ds'. split; [exact Hds' | now rewrite <- app_assoc].
    + split; [discriminate|].
      intros (ds & Hds & _). inversion Hds as [|? d' ? ds' Hd Hds']; subst.
      apply line_module_parses in Hd. rewrite Hx in Hd. discriminate Hd.
Qed.

(** The loop ends with a list of records and no error, or with no record
    and an error. *)
Lemma discover_lines_all_or_nothing (split : list string) :
  forall modules,
    (exists ms, discover_lines NewVersion split modules = (ms, None)) \/
    (exists e, discover_lines NewVersion split modules = ([], Some e)).
Proof.
  induction split as [|x split IH]; intros modules; simpl.
  - left. now exists modules.
  - destruct (skipped x); [apply IH|].
    destruct (line_module NewVersion x) as [d|e]; [apply IH|]. right. now exists e.
Qed.

(** The first kept line that brings an error ends the loop with it. *)
Lemma discover_lines_first_error (pre post : list string) (x : string) (e : error) :
  Forall (fun y => skipped y = true \/ exists d, parses NewVersion y d) pre ->
  skipped x = false ->
  line_module NewVersion x = inr e ->
  forall modules,
    discover_lines NewVersion (pre ++ x :: post) modules = ([], Some e).
Proof.
  intros Hpre Hx He. induction Hpre as [|y pre Hy _ IH]; intros modules; simpl.
  - now rewrite Hx, He.
  - destruct (skipped y) eqn:Hsk; [apply IH|].
    destruct Hy as [Hy|(d & Hd)]; [discriminate Hy|].
    apply line_module_parses in Hd. rewrite Hd. apply IH.
Qed.

(** A kept line that brings an error, somewhere, makes the loop fail. *)
Lemma discover_lines_some_error (split : list string) (x : string) :
  In x split -> skipped x = false -> (forall d, line_module NewVersion x <> inl d) ->
  forall modules, exists e, discover_lines NewVersion split modules = ([], Some e).
Proof.
  intros Hin Hx Hbad. induction split as [|y split IH]; intros modules; simpl.
  - destruct Hin.
  - destruct (skipped y) eqn:Hsk.
    + destruct Hin as [->|Hin]; [congruence|]. now apply IH.
    + destruct (line_module NewVersion y) as [d|e] eqn:Hy; [|now exists e].
      destruct Hin as [->|Hin]; [now destruct (Hbad d)|]. now apply IH.
Qed.

Lemma discover_run (verbose : bool) (st : state World) (out : string) (w : World) :
  Output sys ("go" :: discover_args) (world st) = (out, None, w) ->
  exists tr,
    discover NewVersion World sys verbose st
      = (Returns (discover_lines NewVersion (strings.Split out LF) []), mkState w tr).
Proof.
  intros Hout. unfold discover, bind, Println, emit, exec_Output.
  cbn [world trace]. rewrite Hout.
  match goal with |- context [discover_loop _ _ _ ?sp ?ms ?s] =>
    destruct (discover_loop_lines verbose sp ms s) as (tr & ->) end.
  cbn [world trace]. eexists. reflexivity.
Qed.

End DiscoverFacts.

(** C7, as the claim states it, fails: the line [garbage] does not match the
    pattern, yet the discovery ends on the line before it, whose version
    texts do not parse, with the error of the version parser and not with an
    error that names [garbage].  Likewise, of two lines that do not match,
    only the first is named. *)
Lemma discover_error_is_not_always_ParseError :
  (fst (listing bad_version_then_garbage) = "'foo: x -> y'" ++ nl ++ "garbage" /\
   In "garbage" (strings.Split (fst (listing bad_version_then_garbage)) LF) /\
   "garbage" <> "''" /\ "garbage" <> "" /\
   regexp.FindStringSubmatch re "garbage" = [] /\
   ~ matches_pattern "garbage" /\
   fst (discover semver.parseVersion script scripted false
          (mkState bad_version_then_garbage []))
     = Returns ([], Some (LibError "Invalid Semantic Version")) /\
   LibError "Invalid Semantic Version"
     <> Errorf ("Couldn't parse module " ++ "garbage")) /\
  (In "bad2" (strings.Split (fst (listing two_bad_lines)) LF) /\
   ~ matches_pattern "bad2" /\
   fst (discover semver.parseVersion script scripted false (mkState two_bad_lines []))
     = Returns ([], Some (Errorf ("Couldn't parse module " ++ "bad1"))) /\
   Errorf ("Couldn't parse module " ++ "bad1")
     <> Errorf ("Couldn't parse module " ++ "bad2")).
Proof.
  split.
  - split; [reflexivity|]. split; [simpl; tauto|].
    split; [discriminate|]. split; [discriminate|]. split; [reflexivity|].
    split; [now apply no_match_iff|]. split; [reflexivity | discriminate].
  - split; [simpl; tauto|]. split; [now apply no_match_iff|].
    split; [reflexivity | discriminate].
Qed.

(** C7, amended: when some line of the listing is neither empty nor the
    sentinel and does not match the pattern, [discover] fails and returns no
    record.  The error is that of the first kept line that brings one: the
    error made by [fmt.Errorf], which names the line, when that line does not
    match the pattern; the error of the version parser when that line
    matches and one of its version texts does not parse. *)
Theorem discover_all_or_nothing
    (NewVersion : string -> Version + error) (World : Type) (sys : System World)
    (verbose : bool) (st : state World) (out : string) (w : World) :
  Output sys ("go" :: discover_args) (world st) = (out, None, w) ->
  (exists x, In x (strings.Split out LF) /\ x <> "''" /\ x <> "" /\
             ~ matches_pattern x) ->
  exists e,
    fst (discover NewVersion World sys verbose st) = Returns ([], Some e) /\
    forall pre x post,
      strings.Split out LF = (pre ++ x :: post)%list ->
      Forall (fun y => y = "''" \/ y = "" \/ exists d, parses NewVersion y d) pre ->
      x <> "''" -> x <> "" ->
      (~ matches_pattern x -> e = Errorf ("Couldn't parse module " ++ x)) /\
      (forall whole n f t e',
         regexp.FindStringSubmatch re x = [whole; n; f; t] ->
         NewVersion f = inr e' \/
         ((exists fv, NewVersion f = inl fv) /\ NewVersion t = inr e') ->
         e = e').
Proof.
  intros Hout (bad & Hin & Hs & He & Hbad). apply no_match_iff in Hbad.
  destruct (discover_run NewVersion World sys verbose st out w Hout) as (tr & Hrun).
  assert (Hnot : forall y, y <> "''" -> y <> "" -> skipped y = false).
  { intros y H1 H2. unfold skipped.
    apply String.eqb_neq in H1, H2. now rewrite H1, H2. }
  destruct (discover_lines_some_error NewVersion (strings.Split out LF) bad Hin
              (Hnot _ Hs He)) with (modules := @nil GoModule) as (e & Hres).
  { intros d Hd. rewrite line_module_no_match in Hd by exact Hbad. discriminate Hd. }
  exists e. rewrite Hrun, Hres. split; [reflexivity|].
  intros pre x post Hsplit Hpre Hx1 Hx2.
  assert (Hpre' : Forall (fun y => skipped y = true \/ exists d, parses NewVersion y d) pre).
  { eapply Forall_impl; [|exact Hpre]. intros y [->|[->|Hy]]; auto. }
  assert (Hfirst : forall e', line_module NewVersion x = inr e' -> e = e').
  { intros e' He'.
    pose proof (discover_lines_first_error NewVersion pre post x e' Hpre'
                  (Hnot _ Hx1 Hx2) He' []) as H.
    rewrite <- Hsplit, Hres in H. now inversion H. }
  split.
  - intros Hno. apply no_match_iff in Hno. apply Hfirst.
    now apply line_module_no_match.
  - intros whole n f t e' Hm Hv. apply Hfirst. unfold line_module. rewrite Hm.
    destruct Hv as [Hf|[(fv & Hf) Ht]]; rewrite Hf; [reflexivity|].
    now rewrite Ht.
Qed.

Lemma discover_all_or_nothing_witness :
  fst (discover semver.parseVersion script scripted false (mkState no_arrow []))
    = Returns ([], Some (Errorf "Couldn't parse module 'foo: 1.2.3 1.3.0'")).
Proof.
  destruct (discover_all_or_nothing semver.parseVersion script scripted false
              (mkState no_arrow []) ("'foo: 1.2.3 1.3.0'" ++ nl) no_arrow)
    as (e & Hrun & Hfirst).
  - reflexivity.
  - exists "'foo: 1.2.3 1.3.0'".
    split; [simpl; tauto|]. split; [discriminate|]. split; [discriminate|].
    now apply no_match_iff.
  - rewrite Hrun.
    destruct (Hfirst [] "'foo: 1.2.3 1.3.0'" [""]) as [Hno _];
      [reflexivity | constructor | discriminate | discriminate |].
    rewrite Hno; [reflexivity | now apply no_match_iff].
Defined.

(** C8: [discover] succeeds with the records [ms] exactly when [ms] holds,
    in the order of the lines, one record for every line that is neither
    empty nor the sentinel, each line matching the pattern and giving the
    name and the two parsed versions of its record; empty lines and
    sentinels bring neither a record nor an error.  The one line
    ['foo: 1.2.3 -> 1.3.0'] gives the one record foo, 1.2.3, 1.3.0. *)
Theorem discover_records
    (NewVersion : string -> Version + error) (World : Type) (sys : System World)
    (verbose : bool) (st : state World) (out : string) (w : World) :
  Output sys ("go" :: discover_args) (world st) = (out, None, w) ->
  (forall ms,
     fst (discover NewVersion World sys verbose st) = Returns (ms, None)
     <-> Forall2 (parses NewVersion) (kept out) ms) /\
  (Forall (fun x => x = "" \/ x = "''") (strings.Split out LF) ->
   fst (discover NewVersion World sys verbose st) = Returns ([], None)) /\
  fst (discover semver.parseVersion script scripted verbose (mkState one_line []))
    = Returns ([foo_record], None) /\
  fst (discover semver.parseVersion script scripted verbose
         (mkState one_line_and_sentinel []))
    = Returns ([foo_record], None) /\
  fst (discover semver.parseVersion script scripted verbose (mkState sentinel_only []))
    = Returns ([], None).
Proof.
  intros Hout.
  destruct (discover_run NewVersion World sys verbose st out w Hout) as (tr & Hrun).
  assert (Hiff : forall ms,
     fst (discover NewVersion World sys verbose st) = Returns (ms, None)
     <-> Forall2 (parses NewVersion) (kept out) ms).
  { intros ms. rewrite Hrun. cbn [fst]. unfold kept. split.
    - intros H. inversion H as [H'].
      destruct (discover_lines NewVersion (strings.Split out LF) []) as [ms' err] eqn:Hres.
      inversion H'; subst.
      apply discover_lines_ok in Hres. destruct Hres as (ds & Hds & ->). exact Hds.
    - intros Hds. f_equal. apply discover_lines_ok. now exists ms. }
  split; [exact Hiff|]. split.
  - intros Hall. apply Hiff. unfold kept.
    assert (Hnone : forall l, Forall (fun x => x = "" \/ x = "''") l ->
                              filter (fun x => negb (skipped x)) l = []).
    { intros l Hl. induction Hl as [|x l Hx _ IH]; simpl; [reflexivity|].
      destruct Hx as [->| ->]; exact IH. }
    rewrite (Hnone _ Hall). constructor.
  - destruct verbose; repeat split.
Qed.

Lemma discover_records_witness :
  fst (discover semver.parseVersion script scripted false
         (mkState one_line_and_sentinel []))
    = Returns ([foo_record], None).
Proof.
  destruct (discover_records semver.parseVersion script scripted false
              (mkState one_line_and_sentinel [])
              ("''" ++ nl ++ "'foo: 1.2.3 -> 1.3.0'" ++ nl ++ nl) one_line_and_sentinel
              eq_refl) as [Hiff _].
  apply Hiff. repeat constructor.
  exists "'foo: 1.2.3 -> 1.3.0'", "1.2.3", "1.3.0". repeat split.
Defined.

(** ** Choosing: the column of the current version *)

Lemma max_Zmax (x y : Z) : max x y = Z.max x y.
Proof.
  unfold max. destruct (x >? y)%Z eqn:H.
  - apply Z.gtb_lt in H. lia.
  - rewrite Z.gtb_ltb in H. apply Z.ltb_ge in H. lia.
Qed.

Lemma maximum_nonneg (l : list Z) : (0 <= maximum l)%Z.
Proof. induction l as [|a l IH]; simpl; lia. Qed.

Lemma maximum_upper (l : list Z) (a : Z) : In a l -> (a <= maximum l)%Z.
Proof.
  induction l as [|b l IH]; simpl; [tauto|].
  intros [->|H]; [lia|]. specialize (IH H). lia.
Qed.

Ltac maxima_nonneg modules :=
  pose proof (maximum_nonneg (map (fun x => len (name x)) modules));
  pose proof (maximum_nonneg (map (fun x => len (Version_String (from x))) modules));
  pose proof (maximum_nonneg (map (fun x => len (Version_String (to x))) modules)).

Lemma choose_max_from (modules : list GoModule) :
  forall a b c : Z,
    (0 <= a)%Z -> (0 <= b)%Z -> (0 <= c)%Z ->
    fold_left
      (fun '(maxName, maxFrom, maxTo) x =>
         (max maxName (len (name x)),
          max maxFrom (len (Version_String (from x))),
          max maxTo (len (Version_String (to x)))))
      modules (a, b, c)
    = (Z.max a (maximum (map (fun x => len (name x)) modules)),
       Z.max b (maximum (map (fun x => len (Version_String (from x))) modules)),
       Z.max c (maximum (map (fun x => len (Version_String (to x))) modules))).
Proof.
  induction modules as [|x modules IH]; intros a b c Ha Hb Hc; simpl.
  - f_equal; [f_equal|]; lia.
  - rewrite IH, !max_Zmax by (rewrite max_Zmax; lia).
    maxima_nonneg modules.
    f_equal; [f_equal|]; lia.
Qed.

(** The three widths are the greatest lengths over the records. *)
Lemma choose_max_maximum (modules : list GoModule) :
  choose_max modules
    = (maximum (map (fun x => len (name x)) modules),
       maximum (map (fun x => len (Version_String (from x))) modules),
       maximum (map (fun x => len (Version_String (to x))) modules)).
Proof.
  unfold choose_max. rewrite choose_max_from by lia.
  maxima_nonneg modules.
  f_equal; [f_equal|]; lia.
Qed.

Lemma append_nonempty_l (s t : string) : s <> "" -> s ++ t <> "".
Proof. destruct s; [congruence | discriminate]. Qed.

Lemma Version_String_nonempty (x : Version) : Version_String x <> "".
Proof.
  unfold Version_String.
  assert (H : fmt_d (Major x) ++ "." ++ fmt_d (Minor x) ++ "." ++ fmt_d (Patch x) <> "").
  { destruct (fmt_d (Major x)); discriminate. }
  destruct (String.eqb (Prerelease x) ""), (String.eqb (Metadata x) "");
    auto using append_nonempty_l.
Qed.

Lemma padRight_nonempty (s : string) (n : Z) : s <> "" -> padRight s n <> "".
Proof.
  intros H. unfold padRight. destruct (len s >=? n)%Z; auto using append_nonempty_l.
Qed.

Lemma SprintFunc_nonempty (NoColor : bool) (a : Attribute) (s : string) :
  s <> "" -> SprintFunc NoColor a s <> "".
Proof. intros H. unfold SprintFunc. destruct NoColor; [exact H | discriminate]. Qed.

(** The column, when it is written, is never the empty text. *)
Lemma formatFrom_nonempty (NoColor : bool) (x : Version) (n : Z) :
  formatFrom NoColor x n <> "".
Proof.
  unfold formatFrom.
  apply SprintFunc_nonempty, padRight_nonempty, Version_String_nonempty.
Qed.

(** The loop over the chosen indices leaves the trace as it is. *)
Lemma choose_updates_trace (World : Type) (modules : list GoModule) (choice : list Z) :
  forall (updates : list GoModule) (st : state World),
  exists r, choose_updates World modules choice updates st = (r, st).
Proof.
  induction choice as [|x choice IH]; intros updates st; simpl.
  - now exists (Returns updates).
  - destruct (x <? 0)%Z; [now exists Panics|].
    destruct (nth_error modules (Z.to_nat x)); [apply IH | now exists Panics].
Qed.

(** The ways [choose] ends after the widget has answered: a fatal error, an
    interrupt, or the loop over the chosen indices; each adds at most one
    event to the trace. *)
Ltac choose_ends modules choice w' :=
  first
    [ unfold Fatal; cbn [world trace]; eexists _, w', choice, _, [_];
      rewrite <- !app_assoc; reflexivity
    | unfold Println, emit, Exit; cbn [world trace]; eexists _, w', choice, _, [_];
      rewrite <- !app_assoc; reflexivity
    | match goal with
      | |- context [choose_updates _ _ _ _ ?s] =>
          let r := fresh "r" in
          let Hr := fresh "Hr" in
          destruct (choose_updates_trace _ modules choice [] s) as (r & Hr);
          rewrite Hr; eexists r, w', choice, _, []; rewrite <- !app_assoc; reflexivity
      end ].

Section ChooseFacts.

Variable NoColor : bool.
Variable World : Type.
Variable sys : System World.

(** [choose] asks the terminal for its size, reports a failure of that
    question and goes on, and hands to the widget the options built for
    the width it was told. *)
Lemma choose_run (modules : list GoModule) (pageSize : Z) (st : state World)
      (width height : Z) (err : option error) (w : World)
      (maxName maxFrom maxTo : Z) :
  choose_max modules = (maxName, maxFrom, maxTo) ->
  GetSize sys (world st) = (width, height, err, w) ->
  exists r w' choice err' rest,
    choose NoColor World sys modules pageSize st
      = (r, mkState w'
              (trace st
               ++ EvGetSize width height err
               :: match err with
                  | Some e => [EvStdout ("Error while getting terminal size "
                                         ++ Error e ++ nl)]
                  | None => []
                  end
               ++ EvAskOne (choose_options NoColor width maxName maxFrom maxTo modules)
                    pageSize choice err'
               :: rest)%list).
Proof.
  intros Hmax Hsize. unfold choose. rewrite Hmax.
  unfold bind, terminal_GetSize, survey_AskOne.
  rewrite Hsize. cbn [world trace].
  destruct err as [e|]; unfold Printf, emit, ret; cbn [world trace];
    destruct (AskOne sys (choose_options NoColor width maxName maxFrom maxTo modules)
                pageSize w) as [[choice err'] w'];
    destruct err' as [[msg|msg|]|]; choose_ends modules choice w'.
Qed.

(** The column of a record is written exactly when the test succeeds. *)
Lemma choose_from_shown (termWidth maxName maxFrom maxTo : Z) (x : GoModule) :
  choose_from NoColor termWidth maxName maxFrom maxTo x <> ""
  <-> (termWidth > maxName + maxFrom + maxTo + 11)%Z.
Proof.
  unfold choose_from, showFrom.
  destruct (termWidth >? maxName + maxFrom + maxTo + 11)%Z eqn:H.
  - apply Z.gtb_lt in H. split; [lia|]. intros _. apply formatFrom_nonempty.
  - rewrite Z.gtb_ltb in H. apply Z.ltb_ge in H. split; [congruence | lia].
Qed.

End ChooseFacts.

(** C6: [choose] hands to the widget one option per record, built for the
    width the terminal reported, and the column of the current version is
    written in an option exactly when that width is greater than
    [maxName + maxFrom + maxTo + 11], the three being the greatest lengths of
    the names and of the texts of the two versions over all records.  With
    widths 10, 8 and 8 the column is left out at width 26 and written at
    width 40.  When the question about the size fails, which the terminal
    library answers with an error and a width of -1 or 0, [choose] prints
    the error and goes on to the widget with the column left out. *)
Theorem choose_from_column
    (NoColor : bool) (World : Type) (sys : System World)
    (modules : list GoModule) (pageSize : Z) (st : state World)
    (width height : Z) (err : option error) (w : World) :
  GetSize sys (world st) = (width, height, err, w) ->
  let maxName := maximum (map (fun x => len (name x)) modules) in
  let maxFrom := maximum (map (fun x => len (Version_String (from x))) modules) in
  let maxTo := maximum (map (fun x => len (Version_String (to x))) modules) in
  choose_max modules = (maxName, maxFrom, maxTo) /\
  (exists r w' choice err' rest,
     choose NoColor World sys modules pageSize st
       = (r, mkState w'
               (trace st
                ++ EvGetSize width height err
                :: match err with
                   | Some e => [EvStdout ("Error while getting terminal size "
                                          ++ Error e ++ nl)]
                   | None => []
                   end
                ++ EvAskOne (choose_options NoColor width maxName maxFrom maxTo modules)
                     pageSize choice err'
                :: rest)%list)) /\
  choose_options NoColor width maxName maxFrom maxTo modules
    = map (fun x =>
             formatName NoColor x maxName ++ " "
             ++ choose_from NoColor width maxName maxFrom maxTo x
             ++ " -> " ++ formatTo NoColor x) modules /\
  (forall x,
     choose_from NoColor width maxName maxFrom maxTo x <> ""
     <-> (width > maxName + maxFrom + maxTo + 11)%Z) /\
  (forall x,
     (width > maxName + maxFrom + maxTo + 11)%Z ->
     choose_from NoColor width maxName maxFrom maxTo x
       = formatFrom NoColor (from x) maxFrom) /\
  (choose_max [wide] = (10, 8, 8)%Z /\
   showFrom 26 10 8 8 = false /\ showFrom 40 10 8 8 = true /\
   choose_options true 26 10 8 8 [wide] = ["github.com  -> 10.20.31"] /\
   choose_options true 40 10 8 8 [wide] = ["github.com 10.20.30 -> 10.20.31"]) /\
  (err <> None -> (width <= 0)%Z ->
   choose_options NoColor width maxName maxFrom maxTo modules
     = map (fun x => formatName NoColor x maxName ++ " " ++ "" ++ " -> "
                     ++ formatTo NoColor x) modules).
Proof.
  intros Hsize maxName maxFrom maxTo.
  assert (Hmax : choose_max modules = (maxName, maxFrom, maxTo))
    by apply choose_max_maximum.
  assert (Hopt : choose_options NoColor width maxName maxFrom maxTo modules
    = map (fun x =>
             formatName NoColor x maxName ++ " "
             ++ choose_from NoColor width maxName maxFrom maxTo x
             ++ " -> " ++ formatTo NoColor x) modules) by reflexivity.
  split; [exact Hmax|].
  split; [now apply (choose_run _ _ _ _ _ _ _ _ _ w maxName maxFrom maxTo)|].
  split; [exact Hopt|].
  split; [intros x; apply choose_from_shown|]. split.
  { intros x Hgt. unfold choose_from, showFrom.
    apply Z.gt_lt, Z.gtb_lt in Hgt. now rewrite Hgt. }
  split; [repeat split|].
  intros _ Hw. rewrite Hopt. apply map_ext. intros x.
  assert (Hhide : showFrom width maxName maxFrom maxTo = false).
  { unfold showFrom. rewrite Z.gtb_ltb. apply Z.ltb_ge.
    maxima_nonneg modules.
    subst maxName maxFrom maxTo. lia. }
  unfold choose_from. now rewrite Hhide.
Qed.

Lemma choose_from_column_witness :
  (exists r w' choice err' rest,
     choose true script scripted [wide] 10%Z (mkState no_terminal [])
       = (r, mkState w'
               ([EvGetSize (-1) (-1) (Some (LibError "inappropriate ioctl for device"));
                 EvStdout ("Error while getting terminal size "
                           ++ "inappropriate ioctl for device" ++ nl);
                 EvAskOne (choose_options true (-1) 10 8 8 [wide]) 10 choice err']
                ++ rest)%list)) /\
  choose_options true (-1) 10 8 8 [wide] = ["github.com  -> 10.20.31"].
Proof.
  destruct (choose_from_column true script scripted [wide] 10%Z
              (mkState no_terminal []) (-1)%Z (-1)%Z
              (Some (LibError "inappropriate ioctl for device")) no_terminal eq_refl)
    as (_ & Hrun & _ & _ & _ & _ & Hhidden).
  split; [exact Hrun|].
  apply Hhidden; [discriminate | lia].
Defined.

(** ** Applying the upgrades *)

Section UpdateFacts.

Variable NoColor : bool.
Variable World : Type.
Variable sys : System World.

Lemma update_trace (modules : list GoModule) :
  forall st : state World,
  exists (w : World) (new : list event),
    update NoColor World sys modules st = (Returns tt, mkState w (trace st ++ new)) /\
    commands new = map (fun x => ["go"; "get"; name x]) modules /\
    printed new = reports_due new.
Proof.
  induction modules as [|x modules IH]; intros st.
  - exists (world st), []. simpl. unfold ret. rewrite app_nil_r.
    destruct st; auto.
  - simpl. unfold bind at 1. unfold emit at 1. cbn [world trace].
    unfold bind at 1. unfold exec_CombinedOutput at 1. cbn [world trace].
    destruct (CombinedOutput sys ["go"; "get"; name x] (world st))
      as [[out err] w1] eqn:Hrun.
    unfold bind at 1.
    destruct err as [e|].
    + unfold Printf at 1, emit at 1. cbn [world trace].
      match goal with |- context [update _ _ _ _ ?s] => destruct (IH s) as (w & new & Hrun' & Hcmd & Hpr) end.
      cbn [world trace] in Hrun'. rewrite Hrun'.
      eexists w, (_ :: _ :: _ :: new). split.
      * rewrite <- !app_assoc. reflexivity.
      * unfold commands, printed, reports_due in *. simpl.
        rewrite Hcmd, Hpr. split; reflexivity.
    + unfold ret at 1.
      match goal with |- context [update _ _ _ _ ?s] => destruct (IH s) as (w & new & Hrun' & Hcmd & Hpr) end.
      cbn [world trace] in Hrun'. rewrite Hrun'.
      eexists w, (_ :: _ :: new). split.
      * rewrite <- !app_assoc. reflexivity.
      * unfold commands, printed, reports_due in *. simpl.
        rewrite Hcmd, Hpr. split; reflexivity.
Qed.

End UpdateFacts.

(** C9: [update] runs [go get] once for every selected record, in order,
    whatever the earlier runs answered; it prints one report for every run
    that failed, and nothing else on standard output; and it always returns.
    With three records of which the second fails, the first and the third
    are attempted all the same. *)
Theorem update_partial_failure_tolerant :
  (forall (NoColor : bool) (World : Type) (sys : System World)
          (modules : list GoModule) (st : state World),
     exists (w : World) (new : list event),
       update NoColor World sys modules st = (Returns tt, mkState w (trace st ++ new)) /\
       commands new = map (fun x => ["go"; "get"; name x]) modules /\
       printed new = reports_due new) /\
  (exists tr : list event,
     update true script scripted three_modules (mkState b_fails [])
       = (Returns tt, mkState b_fails tr) /\
     commands tr = [["go"; "get"; "a"]; ["go"; "get"; "b"]; ["go"; "get"; "c"]] /\
     In (EvExec ["go"; "get"; "b"] "boom" (Some (LibError "exit status 1"))) tr /\
     printed tr = ["Error while updating b: boom" ++ nl]).
Proof.
  split.
  - intros. apply update_trace.
  - eexists. split; [vm_compute; reflexivity|].
    split; [reflexivity|]. split; [|reflexivity].
    simpl. tauto.
Qed.

(** * Further properties *)

(** ** Padding and the widths of the columns *)

Lemma len_append (a b : string) : len (a ++ b) = (len a + len b)%Z.
Proof.
  unfold len. induction a as [|c a IH]; simpl String.length; [lia|].
  rewrite !Nat2Z.inj_succ, IH. lia.
Qed.

Lemma len_Repeat_space (n : nat) : len (Repeat " " n) = Z.of_nat n.
Proof.
  unfold len. induction n as [|n IH]; [reflexivity|].
  cbn [Repeat]. simpl String.length. rewrite !Nat2Z.inj_succ, IH. reflexivity.
Qed.

Lemma len_nonneg (s : string) : (0 <= len s)%Z.
Proof. unfold len. lia. Qed.

Lemma append_empty_r (s : string) : s ++ "" = s.
Proof. induction s as [|c s IH]; simpl; [reflexivity | now rewrite IH]. Qed.

Lemma padRight_shape (str : string) (length : Z) :
  padRight str length = str ++ Repeat " " (Z.to_nat (length - len str)).
Proof.
  unfold padRight. destruct (len str >=? length)%Z eqn:H; [|reflexivity].
  apply Z.geb_le in H. replace (Z.to_nat (length - len str)) with O by lia.
  cbn [Repeat]. now rewrite append_empty_r.
Qed.

Lemma padRight_len (str : string) (length : Z) :
  len (padRight str length) = Z.max (len str) length.
Proof.
  rewrite padRight_shape, len_append, len_Repeat_space.
  pose proof (len_nonneg str). lia.
Qed.

(** X1: [padRight] never cuts its text: the result is the text followed by
    [length - len(str)] spaces (none when the text is already that long), so
    its length is the greater of the two; padding twice is padding once. *)
Theorem padRight_pads (str : string) (length : Z) :
  padRight str length = str ++ Repeat " " (Z.to_nat (length - len str)) /\
  len (padRight str length) = Z.max (len str) length /\
  padRight (padRight str length) length = padRight str length.
Proof.
  pose proof (padRight_len str length) as Hlen.
  split; [apply padRight_shape|]. split; [exact Hlen|].
  unfold padRight at 1. rewrite Hlen.
  destruct (Z.max (len str) length >=? length)%Z eqn:H; [reflexivity|].
  rewrite Z.geb_leb in H. apply Z.leb_gt in H. lia.
Qed.

Lemma columns_widths (modules : list GoModule) (x : GoModule) :
  In x modules ->
  let '(maxName, maxFrom, maxTo) := choose_max modules in
  len (padRight (name x) maxName) = maxName /\
  len (padRight (Version_String (from x)) maxFrom) = maxFrom /\
  (len (Version_String (to x)) <= maxTo)%Z.
Proof.
  intros Hin. rewrite choose_max_maximum.
  assert (H1 : (len (name x) <= maximum (map (fun x => len (name x)) modules))%Z).
  { apply maximum_upper. now apply (in_map (fun x => len (name x))). }
  assert (H2 : (len (Version_String (from x))
                <= maximum (map (fun x => len (Version_String (from x))) modules))%Z).
  { apply maximum_upper. now apply (in_map (fun x => len (Version_String (from x)))). }
  assert (H3 : (len (Version_String (to x))
                <= maximum (map (fun x => len (Version_String (to x))) modules))%Z).
  { apply maximum_upper. now apply (in_map (fun x => len (Version_String (to x)))). }
  rewrite !padRight_len. lia.
Qed.

(** X2: the widths that [choose] computes make the columns line up: for
    every record of the list, the name padded to [maxName] has exactly
    [maxName] bytes and the current version padded to [maxFrom] exactly
    [maxFrom] bytes (what [formatName] and [formatFrom] put on the screen),
    and the text of the new version has at most [maxTo] bytes. *)
Theorem columns_line_up (modules : list GoModule) (x : GoModule) :
  In x modules ->
  let '(maxName, maxFrom, maxTo) := choose_max modules in
  len (padRight (name x) maxName) = maxName /\
  formatName true x maxName = padRight (name x) maxName /\
  len (formatFrom true (from x) maxFrom) = maxFrom /\
  (len (Version_String (to x)) <= maxTo)%Z.
Proof.
  intros Hin. pose proof (columns_widths modules x Hin) as H.
  destruct (choose_max modules) as [[maxName maxFrom] maxTo].
  destruct H as (Hname & Hfrom & Hto).
  split; [exact Hname|]. split; [reflexivity|]. split; [exact Hfrom | exact Hto].
Qed.

Lemma columns_line_up_witness :
  len (padRight (name foo_record) 10) = 10%Z /\
  formatName true foo_record 10 = padRight (name foo_record) 10 /\
  len (formatFrom true (from foo_record) 8) = 8%Z /\
  (len (Version_String (to foo_record)) <= 8)%Z.
Proof.
  apply (columns_line_up [wide; foo_record] foo_record). simpl. tauto.
Defined.

(** ** The text of the new version *)

Lemma Buffer_String_text (buf : list chunk) :
  Buffer_String true buf = Buffer_text buf.
Proof. induction buf as [|[s|a s] buf IH]; simpl; now rewrite ?IH. Qed.

Lemma Buffer_text_app (a b : list chunk) :
  Buffer_text (a ++ b) = Buffer_text a ++ Buffer_text b.
Proof.
  induction a as [|c a IH]; simpl; [reflexivity|].
  now rewrite IH, append_assoc.
Qed.

Lemma formatTo_buf_text (m : GoModule) :
  Buffer_text (formatTo_buf m) = Version_String (to m).
Proof.
  rewrite formatTo_buf_parts. unfold Version_String.
  change (Plain ?s :: ?l) with ([Plain s] ++ l)%list.
  rewrite !Buffer_text_app.
  unfold minor_part, patch_part, prerelease_part, metadata_part, green.
  destruct (differs_N (Minor _) _), (differs_N (Patch _) _), (differs_s _ _),
    (String.eqb (Prerelease (to m)) ""), (String.eqb (Metadata (to m)) "");
    cbn [Buffer_text fold_right chunk_text orb];
    rewrite ?append_assoc, ?append_empty_r; cbn [append]; reflexivity.
Qed.

Lemma formatTo_plain (m : GoModule) : formatTo true m = Version_String (to m).
Proof. unfold formatTo. now rewrite Buffer_String_text, formatTo_buf_text. Qed.

(** X3: whatever is highlighted, the text that [formatTo] writes is the text
    of the new version, [MAJOR.MINOR.PATCH[-PRERELEASE][+BUILD]]: the pieces
    of the buffer without their colours spell it, and with colours switched
    off [formatTo] returns exactly it.  The current version decides only the
    colours. *)
Theorem formatTo_spells_version (m : GoModule) :
  Buffer_text (formatTo_buf m) = Version_String (to m) /\
  formatTo true m = Version_String (to m).
Proof.
  split; [apply formatTo_buf_text | apply formatTo_plain].
Qed.

(** ** The width of an option *)

(** X4: what an option of [choose] takes on the screen (colours apart).
    When the column of the current version is written, the option of every
    record has [maxName + maxFrom + 5] bytes and the text of the new
    version, and at least 6 columns of the terminal stay free after it;
    when the column is left out, both spaces around it stay and the option
    has [maxName + 5] bytes and the text of the new version. *)
Theorem option_width (modules : list GoModule) (termWidth : Z) (x : GoModule) :
  In x modules ->
  let '(maxName, maxFrom, maxTo) := choose_max modules in
  let option :=
    formatName true x maxName ++ " "
    ++ choose_from true termWidth maxName maxFrom maxTo x
    ++ " -> " ++ formatTo true x in
  In option (choose_options true termWidth maxName maxFrom maxTo modules) /\
  (showFrom termWidth maxName maxFrom maxTo = true ->
   len option = (maxName + maxFrom + len (Version_String (to x)) + 5)%Z /\
   (len option + 6 < termWidth)%Z) /\
  (showFrom termWidth maxName maxFrom maxTo = false ->
   len option = (maxName + len (Version_String (to x)) + 5)%Z).
Proof.
  intros Hin. pose proof (columns_widths modules x Hin) as Hcols.
  destruct (choose_max modules) as [[maxName maxFrom] maxTo].
  destruct Hcols as (Hname & Hfrom & Hto).
  assert (Hfn : formatName true x maxName = padRight (name x) maxName) by reflexivity.
  assert (Hff : formatFrom true (from x) maxFrom
                = padRight (Version_String (from x)) maxFrom) by reflexivity.
  cbv zeta. split.
  - unfold choose_options.
    apply (in_map (fun x =>
             formatName true x maxName ++ " "
             ++ choose_from true termWidth maxName maxFrom maxTo x
             ++ " -> " ++ formatTo true x)), Hin.
  - pose proof (formatTo_plain x) as Hspell.
    unfold choose_from. split; intros Hshow; rewrite Hshow.
    + rewrite !len_append, Hfn, Hff, Hname, Hfrom, Hspell.
      change (len " ") with 1%Z. change (len " -> ") with 4%Z.
      split; [lia|]. unfold showFrom in Hshow. apply Z.gtb_lt in Hshow. lia.
    + rewrite !len_append, Hfn, Hname, Hspell.
      change (len " ") with 1%Z. change (len " -> ") with 4%Z.
      change (len "") with 0%Z. lia.
Qed.

Lemma option_width_witness :
  In ("foo        1.2.3    -> 1.3.0")
     (choose_options true 40 10 8 8 [wide; foo_record]) /\
  (len "foo        1.2.3    -> 1.3.0" + 6 < 40)%Z.
Proof.
  destruct (option_width [wide; foo_record] 40 foo_record) as (Hin & Hshown & _).
  - simpl. tauto.
  - split; [exact Hin|]. now apply Hshown.
Defined.

(** ** Discovery as a whole *)

Lemma calls_app (a b : list event) : calls (a ++ b) = (calls a ++ calls b)%list.
Proof. apply filter_app. Qed.

Lemma printed_app (a b : list event) : printed (a ++ b) = (printed a ++ printed b)%list.
Proof. apply flat_map_app. Qed.

(** The loop of [discover] adds to the trace nothing but texts on standard
    output, and nothing at all unless it is verbose; the world stays. *)
Lemma discover_loop_prints
    (NewVersion : string -> Version + error) (World : Type)
    (verbose : bool) (split : list string) :
  forall (modules : list GoModule) (st : state World),
  exists tr,
    discover_loop NewVersion World verbose split modules st
      = (Returns (discover_lines NewVersion split modules),
         mkState (world st) (trace st ++ tr)) /\
    calls tr = [] /\ (verbose = false -> tr = []).
Proof.
  induction split as [|x split IH]; intros modules st;
    cbn [discover_loop discover_lines].
  - exists []. rewrite app_nil_r. destruct st; auto.
  - unfold skipped. destruct (String.eqb x "''"); [apply IH|].
    destruct (String.eqb x ""); [apply IH|]. cbn [negb andb orb].
    unfold line_module.
    destruct (FindStringSubmatch_re x) as [H|(whole & n & f & t & H)]; rewrite H.
    + change (Z.of_nat (List.length (@nil string)) <? 4)%Z with true. cbv iota.
      exists []. rewrite app_nil_r. destruct st; auto.
    + change (Z.of_nat (List.length [whole; n; f; t]) <? 4)%Z with false.
      cbv iota. cbn [nth]. unfold bind at 1.
      assert (Hpr : exists tr0,
                 (if verbose
                  then Printf World
                         ("Found module " ++ n ++ ", from " ++ f ++ " to " ++ t ++ nl)
                  else ret tt) st
                 = (Returns tt, mkState (world st) (trace st ++ tr0)) /\
                 calls tr0 = [] /\ (verbose = false -> tr0 = [])).
      { destruct verbose.
        - eexists [_]. split; [reflexivity|]. split; [reflexivity | discriminate].
        - exists []. rewrite app_nil_r. destruct st; auto. }
      destruct Hpr as (tr0 & Hpr & Hc0 & Hq0). rewrite Hpr.
      destruct (NewVersion f) as [fv|e]; [|now exists tr0].
      destruct (NewVersion t) as [tv|e]; [|now exists tr0].
      destruct (IH (modules ++ [mkModule n fv tv])%list
                   (mkState (world st) (trace st ++ tr0)))
        as (tr & Hrun & Hc & Hq).
      rewrite Hrun. exists (tr0 ++ tr)%list. cbn [world trace].
      split; [now rewrite app_assoc|]. split.
      * now rewrite calls_app, Hc0, Hc.
      * intros Hv. now rewrite (Hq0 Hv), (Hq Hv).
Qed.

(** X5: [discover] always returns, and what it returns is all or nothing:
    whenever it returns an error it returns no record.  It calls one
    collaborator only, the listing command, once; and when that command
    fails, its error is returned as it is and nothing is parsed. *)
Theorem discover_returns_all_or_nothing
    (NewVersion : string -> Version + error) (World : Type) (sys : System World)
    (verbose : bool) (st : state World) :
  exists ms err w tr out err0,
    discover NewVersion World sys verbose st
      = (Returns (ms, err), mkState w (trace st ++ tr)) /\
    (err <> None -> ms = []) /\
    Output sys ("go" :: discover_args) (world st) = (out, err0, w) /\
    calls tr = [EvExec ("go" :: discover_args) out err0] /\
    (err0 <> None -> ms = [] /\ err = err0).
Proof.
  unfold discover, bind, Println, emit, exec_Output. cbn [world trace].
  destruct (Output sys ("go" :: discover_args) (world st)) as [[out err0] w] eqn:Hout.
  destruct err0 as [e|].
  - unfold ret. eexists [], (Some e), w, [_; _], out, (Some e).
    split; [rewrite <- app_assoc; reflexivity|].
    split; [reflexivity|]. split; [reflexivity|]. split; [reflexivity|]. auto.
  - match goal with |- context [discover_loop _ _ _ ?sp ?ms ?s] =>
      destruct (discover_loop_prints NewVersion World verbose sp ms s)
        as (tr & Hrun & Hc & _) end.
    rewrite Hrun. cbn [world trace].
    destruct (discover_lines_all_or_nothing NewVersion (strings.Split out LF) [])
      as [(ms & Hres)|(e & Hres)]; rewrite Hres.
    + eexists ms, None, w, (_ :: _ :: tr), out, None.
      split; [rewrite <- !app_assoc; reflexivity|].
      split; [congruence|]. split; [reflexivity|].
      split; [|congruence]. cbn. unfold calls in Hc. now rewrite Hc.
    + eexists [], (Some e), w, (_ :: _ :: tr), out, None.
      split; [rewrite <- !app_assoc; reflexivity|].
      split; [reflexivity|]. split; [reflexivity|].
      split; [|congruence]. cbn. unfold calls in Hc. now rewrite Hc.
Qed.

(** X6: the flag [verbose] changes nothing but what is printed: with and
    without it [discover] returns the same result, leaves the world in the
    same state and makes the same calls; without it the only text printed
    is the opening line. *)
Theorem discover_verbose_only_prints
    (NewVersion : string -> Version + error) (World : Type) (sys : System World)
    (st : state World) :
  exists r w loud quiet,
    discover NewVersion World sys true st = (r, mkState w (trace st ++ loud)) /\
    discover NewVersion World sys false st = (r, mkState w (trace st ++ quiet)) /\
    calls loud = calls quiet /\
    printed quiet = ["Discovering modules..." ++ nl].
Proof.
  unfold discover, bind, Println, emit, exec_Output. cbn [world trace].
  destruct (Output sys ("go" :: discover_args) (world st)) as [[out err0] w] eqn:Hout.
  destruct err0 as [e|].
  - unfold ret. eexists _, w, [_; _], [_; _].
    split; [rewrite <- app_assoc; reflexivity|].
    split; [rewrite <- app_assoc; reflexivity|]. split; reflexivity.
  - match goal with |- context [discover_loop _ _ true ?sp ?ms ?s] =>
      destruct (discover_loop_prints NewVersion World true sp ms s)
        as (tr1 & Hrun1 & Hc1 & _);
      destruct (discover_loop_prints NewVersion World false sp ms s)
        as (tr2 & Hrun2 & Hc2 & Hq2) end.
    rewrite Hrun1, Hrun2. cbn [world trace]. rewrite (Hq2 eq_refl) in *.
    eexists _, w, (_ :: _ :: tr1), [_; _].
    split; [rewrite <- !app_assoc; reflexivity|].
    split; [rewrite app_nil_r, <- !app_assoc; reflexivity|].
    split; [|reflexivity]. cbn. unfold calls in Hc1. now rewrite Hc1.
Qed.

(** X7: every record that [discover] returns comes from its own line of
    the listing, in order: the line holds the quoted text
    ['name: f -> t'] with the name of the record, which is therefore never
    empty and never holds a line feed, and [f] and [t] are texts that the
    version parser turned into the two versions of the record.  There are
    as many records as lines that are neither empty nor the sentinel. *)
Theorem discover_records_come_from_lines
    (NewVersion : string -> Version + error) (World : Type) (sys : System World)
    (verbose : bool) (st : state World) (out : string) (w : World)
    (ms : list GoModule) :
  Output sys ("go" :: discover_args) (world st) = (out, None, w) ->
  fst (discover NewVersion World sys verbose st) = Returns (ms, None) ->
  Forall2 (line_of_record NewVersion) (kept out) ms /\
  List.length ms = List.length (kept out) /\
  Forall (fun d => name d <> "") ms.
Proof.
  intros Hout Hres.
  destruct (discover_run NewVersion World sys verbose st out w Hout) as (tr & Hrun).
  rewrite Hrun in Hres. cbn [fst] in Hres. inversion Hres as [Hlines].
  apply discover_lines_ok in Hlines. destruct Hlines as (ds & Hds & ->).
  cbn [app]. fold (kept out) in Hds.
  assert (H : Forall2 (line_of_record NewVersion) (kept out) ds).
  { eapply Forall2_impl; [|exact Hds].
    intros x d (whole & f & t & Hm & Hf & Ht).
    apply FindStringSubmatch_sound in Hm. destruct Hm as [Hd (a & b & ->)].
    apply denotes_re in Hd.
    destruct Hd as (n' & f' & t' & Hgs & -> & Hn & Hf' & Ht').
    inversion Hgs; subst. now exists a, f', t', b. }
  split; [exact H|]. split.
  - symmetry. eapply Forall2_length; exact H.
  - clear -H. induction H as [|x d l l' Hxd _ IH]; constructor; [|exact IH].
    destruct Hxd as (_ & _ & _ & _ & _ & [Hne _] & _). exact Hne.
Qed.

Lemma discover_records_come_from_lines_witness :
  Forall2 (line_of_record semver.parseVersion)
          (kept ("''" ++ nl ++ "'foo: 1.2.3 -> 1.3.0'" ++ nl ++ nl)) [foo_record] /\
  List.length [foo_record]
    = List.length (kept ("''" ++ nl ++ "'foo: 1.2.3 -> 1.3.0'" ++ nl ++ nl)) /\
  Forall (fun d => name d <> "") [foo_record].
Proof.
  apply (discover_records_come_from_lines semver.parseVersion script scripted false
           (mkState one_line_and_sentinel [])
           ("''" ++ nl ++ "'foo: 1.2.3 -> 1.3.0'" ++ nl ++ nl) one_line_and_sentinel
           [foo_record]); reflexivity.
Defined.

(** ** What the groups of a well-formed line hold *)

Lemma take_append (a b : string) : strings.take (String.length a) (a ++ b) = a.
Proof. induction a as [|c a IH]; simpl; [now destruct b | now rewrite IH]. Qed.

Lemma drop_append_more (a b : string) (i : nat) :
  strings.drop (String.length a + i) (a ++ b) = strings.drop i b.
Proof. induction a as [|c a IH]; simpl; [reflexivity | exact IH]. Qed.

Lemma length_append (a b : string) :
  String.length (a ++ b) = (String.length a + String.length b)%nat.
Proof. induction a as [|c a IH]; simpl; [reflexivity | now rewrite IH]. Qed.

Lemma dot_run_append_all (a b : string) :
  regexp.dot_run a = String.length a ->
  regexp.dot_run (a ++ b) = (String.length a + regexp.dot_run b)%nat.
Proof.
  induction a as [|c a IH]; simpl; [reflexivity|].
  destruct (Ascii.eqb c LF); [discriminate|].
  intros H. injection H as H. now rewrite IH.
Qed.

Lemma all_bytes_append (p : ascii -> bool) (a b : string) :
  all_bytes p (a ++ b) = all_bytes p a && all_bytes p b.
Proof.
  induction a as [|c a IH]; simpl; [reflexivity|].
  now rewrite IH, andb_assoc.
Qed.

Lemma all_bytes_impl (p q : ascii -> bool) (s : string) :
  (forall c, p c = true -> q c = true) -> all_bytes p s = true -> all_bytes q s = true.
Proof.
  intros Hpq. induction s as [|c s IH]; simpl; [reflexivity|].
  intros H. apply andb_true_iff in H. destruct H as [Hc Hs].
  now rewrite (Hpq c Hc), IH.
Qed.

(** The first byte of what is left after dropping some bytes satisfies what
    all bytes satisfy. *)
Lemma drop_first_byte (p : ascii -> bool) (s : string) :
  all_bytes p s = true ->
  forall j c s', strings.drop j s = String c s' -> p c = true.
Proof.
  induction s as [|x s IH]; intros Hall j c s' Hd.
  - destruct j; discriminate Hd.
  - simpl in Hall. apply andb_true_iff in Hall. destruct Hall as [Hx Hs].
    destruct j as [|j]; simpl in Hd.
    + inversion Hd; subst. exact Hx.
    + eapply IH; eassumption.
Qed.

(** A pattern that begins with a literal byte fails on what is left of a
    text none of whose bytes is that byte. *)
Lemma literal_fails_on_rest (c : ascii) (p : regexp.Regexp) (s : string) (j : nat) :
  all_bytes (fun b => negb (Ascii.eqb c b)) s = true ->
  regexp.match_here (regexp.Lit c :: p) (strings.drop j s) = None.
Proof.
  intros Hall. destruct (strings.drop j s) as [|c' s'] eqn:Hd; [reflexivity|].
  pose proof (drop_first_byte _ s Hall j c' s' Hd) as Hc.
  cbn [regexp.match_here]. apply negb_true_iff in Hc. now rewrite Hc.
Qed.

(** The greedy loop ends on the greatest length at which the rest of the
    pattern matches. *)
Lemma try_lengths_first (k : string -> option (string * list string)) (s : string)
      (m : nat) (w : string) (gs : list string) :
  (1 <= m)%nat ->
  k (strings.drop m s) = Some (w, gs) ->
  forall n,
    (m <= n)%nat ->
    (forall j, (m < j <= n)%nat -> k (strings.drop j s) = None) ->
    regexp.try_lengths k s n = Some (strings.take m s ++ w, strings.take m s :: gs).
Proof.
  intros Hm Hk n. induction n as [|n IH]; intros Hmn Hfail; [lia|].
  cbn [regexp.try_lengths].
  destruct (Nat.eq_dec m (S n)) as [<-|Hne].
  - now rewrite Hk.
  - rewrite (Hfail (S n)) by lia. apply IH; [lia|]. intros j Hj. apply Hfail. lia.
Qed.

Lemma match_here_lit (c x : ascii) (p : regexp.Regexp) (s : string) :
  regexp.match_here (regexp.Lit c :: p) (String x s)
    = if Ascii.eqb c x
      then match regexp.match_here p s with
           | Some (m, gs) => Some (String x m, gs)
           | None => None
           end
      else None.
Proof. reflexivity. Qed.

Lemma match_here_group (p : regexp.Regexp) (s : string) :
  regexp.match_here (regexp.AnyPlus :: p) s
    = regexp.try_lengths (regexp.match_here p) s (regexp.dot_run s).
Proof. reflexivity. Qed.

Lemma three_literals_fail (a b c : ascii) (p : regexp.Regexp) (s : string) :
  all_bytes (fun x => negb (Ascii.eqb c x)) s = true ->
  regexp.match_here (regexp.Lit a :: regexp.Lit b :: regexp.Lit c :: p) s = None.
Proof.
  intros Hall. destruct s as [|x [|y [|z s]]]; cbn [regexp.match_here].
  - reflexivity.
  - now destruct (Ascii.eqb a x).
  - now destruct (Ascii.eqb a x), (Ascii.eqb b y).
  - simpl in Hall. apply andb_true_iff in Hall. destruct Hall as [_ Hall].
    apply andb_true_iff in Hall. destruct Hall as [_ Hall].
    apply andb_true_iff in Hall. destruct Hall as [Hz _].
    apply negb_true_iff in Hz. rewrite Hz.
    now destruct (Ascii.eqb a x), (Ascii.eqb b y).
Qed.

Section WellFormedLine.

Variables n f t : string.
Hypothesis Hn : group_text n.
Hypothesis Hf : group_text f.
Hypothesis Ht : group_text t.
Hypothesis Hf_bytes : all_bytes not_space_colon f = true.
Hypothesis Ht_bytes : all_bytes not_space_colon t = true.


Lemma length_positive (g : string) : group_text g -> (1 <= String.length g)%nat.
Proof. intros [Hne _]. destruct g; [congruence | simpl; lia]. Qed.

Lemma no_space_in (g : string) :
  all_bytes not_space_colon g = true ->
  all_bytes (fun x => negb (Ascii.eqb " " x)) g = true.
Proof.
  apply all_bytes_impl. intros c H. unfold not_space_colon in H.
  apply andb_true_iff in H. destruct H as [H _].
  now rewrite Ascii.eqb_sym.
Qed.

Lemma no_colon_in (g : string) :
  all_bytes not_space_colon g = true ->
  all_bytes (fun x => negb (Ascii.eqb ":" x)) g = true.
Proof.
  apply all_bytes_impl. intros c H. unfold not_space_colon in H.
  apply andb_true_iff in H. destruct H as [_ H].
  now rewrite Ascii.eqb_sym.
Qed.

Lemma third_group :
  regexp.try_lengths (regexp.match_here [regexp.Lit "'"])
    (after_to t) (regexp.dot_run (after_to t))
    = Some (after_to t, [t]).
Proof.
  destruct Ht as [_ Hrun]. unfold after_to.
  rewrite (dot_run_append_all t _ Hrun). cbn [regexp.dot_run].
  change (if Ascii.eqb "'" LF then O else 1%nat) with 1%nat.
  replace (Some (t ++ String "'" "", [t]))
    with (Some (strings.take (String.length t) (t ++ String "'" "") ++ String "'" "",
                strings.take (String.length t) (t ++ String "'" "") :: []))
    by now rewrite take_append.
  apply try_lengths_first.
  - now apply length_positive.
  - now rewrite drop_append.
  - lia.
  - intros j Hj. replace j with (String.length t + 1)%nat by lia.
    now rewrite drop_append_more.
Qed.

Lemma second_group :
  regexp.try_lengths
    (regexp.match_here
       [regexp.Lit " "; regexp.Lit "-"; regexp.Lit ">"; regexp.Lit " ";
        regexp.AnyPlus; regexp.Lit "'"])
    (after_from f t) (regexp.dot_run (after_from f t))
    = Some (after_from f t, [f; t]).
Proof.
  pose proof third_group as H3.
  destruct Hf as [_ Hrunf]. destruct Ht as [_ Hrunt].
  assert (Hrun : regexp.dot_run (after_from f t)
                 = (String.length f + (4 + regexp.dot_run (after_to t)))%nat).
  { unfold after_from. now rewrite (dot_run_append_all f _ Hrunf). }
  rewrite Hrun.
  assert (Hs3 : all_bytes (fun x => negb (Ascii.eqb " " x)) (after_to t) = true).
  { unfold after_to. rewrite all_bytes_append, (no_space_in t Ht_bytes). reflexivity. }
  replace (Some (after_from f t, [f; t]))
    with (Some (strings.take (String.length f) (after_from f t)
                ++ String " " (String "-" (String ">" (String " " (after_to t)))),
                strings.take (String.length f) (after_from f t) :: [t]))
    by (unfold after_from; now rewrite take_append).
  apply try_lengths_first.
  - now apply length_positive.
  - unfold after_from. rewrite drop_append.
    rewrite !match_here_lit, !Ascii.eqb_refl, match_here_group.
    now rewrite H3.
  - lia.
  - intros j Hj. unfold after_from.
    replace j with (String.length f + (j - String.length f))%nat by lia.
    rewrite drop_append_more.
    destruct (j - String.length f)%nat as [|[|[|[|i]]]] eqn:Hi; [lia| | | |].
    + reflexivity.
    + reflexivity.
    + cbn [strings.drop]. rewrite match_here_lit, Ascii.eqb_refl.
      now rewrite three_literals_fail.
    + cbn [strings.drop]. now apply literal_fails_on_rest.
Qed.

Lemma first_group :
  regexp.try_lengths
    (regexp.match_here
       [regexp.Lit ":"; regexp.Lit " "; regexp.AnyPlus;
        regexp.Lit " "; regexp.Lit "-"; regexp.Lit ">"; regexp.Lit " ";
        regexp.AnyPlus; regexp.Lit "'"])
    (after_name n f t) (regexp.dot_run (after_name n f t))
    = Some (after_name n f t, [n; f; t]).
Proof.
  pose proof second_group as H2.
  destruct Hn as [_ Hrunn].
  assert (Hrun : regexp.dot_run (after_name n f t)
                 = (String.length n + (2 + regexp.dot_run (after_from f t)))%nat).
  { unfold after_name. now rewrite (dot_run_append_all n _ Hrunn). }
  rewrite Hrun.
  assert (Hs2 : all_bytes (fun x => negb (Ascii.eqb ":" x))
                  (String " " (after_from f t)) = true).
  { unfold after_from, after_to. cbn [all_bytes].
    rewrite all_bytes_append, (no_colon_in f Hf_bytes). cbn [all_bytes].
    rewrite all_bytes_append, (no_colon_in t Ht_bytes). reflexivity. }
  replace (Some (after_name n f t, [n; f; t]))
    with (Some (strings.take (String.length n) (after_name n f t)
                ++ String ":" (String " " (after_from f t)),
                strings.take (String.length n) (after_name n f t) :: [f; t]))
    by (unfold after_name; now rewrite take_append).
  apply try_lengths_first.
  - now apply length_positive.
  - unfold after_name. rewrite drop_append.
    rewrite !match_here_lit, !Ascii.eqb_refl, match_here_group.
    now rewrite H2.
  - lia.
  - intros j Hj. unfold after_name.
    replace j with (String.length n + S (j - String.length n - 1))%nat by lia.
    rewrite drop_append_more. cbn [strings.drop].
    now apply literal_fails_on_rest.
Qed.

Lemma well_formed_line_groups :
  regexp.FindStringSubmatch re (String "'" (after_name n f t))
    = [String "'" (after_name n f t); n; f; t].
Proof.
  pose proof first_group as H1.
  unfold re. cbn [regexp.MustCompile]. cbn [regexp.FindStringSubmatch].
  rewrite match_here_lit, Ascii.eqb_refl, match_here_group.
  now rewrite H1.
Qed.

End WellFormedLine.

(** X8: on a line that is just ['name: from -> to'], with version texts that
    hold neither a space nor a colon (nor a line feed), the three groups
    are exactly the name and the two version texts, whatever bytes other
    than the line feed the name holds (spaces, colons and quotes
    included); so the line gives the record of that name with the two parsed
    versions, or the error of the first version text that does not parse. *)
Theorem discover_line_groups
    (NewVersion : string -> Version + error) (n f t : string) :
  group_text n -> group_text f -> group_text t ->
  all_bytes not_space_colon f = true ->
  all_bytes not_space_colon t = true ->
  let line := "'" ++ n ++ ": " ++ f ++ " -> " ++ t ++ "'" in
  regexp.FindStringSubmatch re line = [line; n; f; t] /\
  (forall d,
     parses NewVersion line d
     <-> name d = n /\ NewVersion f = inl (from d) /\ NewVersion t = inl (to d)) /\
  line_module NewVersion line
    = match NewVersion f with
      | inr err => inr err
      | inl fromversion =>
          match NewVersion t with
          | inr err => inr err
          | inl toversion => inl (mkModule n fromversion toversion)
          end
      end.
Proof.
  intros Hn Hf Ht Hfb Htb line.
  assert (Hm : regexp.FindStringSubmatch re line = [line; n; f; t])
    by exact (well_formed_line_groups n f t Hn Hf Ht Hfb Htb).
  split; [exact Hm|]. split.
  - intros d. unfold parses. rewrite Hm. split.
    + intros (whole & f' & t' & Heq & Hf' & Ht'). inversion Heq; subst. auto.
    + intros (<- & Hf' & Ht'). now exists line, f, t.
  - unfold line_module. now rewrite Hm.
Qed.

Lemma discover_line_groups_witness :
  regexp.FindStringSubmatch re "'example.com/x y: z: v1.2.3 -> v1.3.0-rc.1'"
    = ["'example.com/x y: z: v1.2.3 -> v1.3.0-rc.1'"; "example.com/x y: z";
       "v1.2.3"; "v1.3.0-rc.1"].
Proof.
  refine (proj1 (discover_line_groups semver.parseVersion
                   "example.com/x y: z" "v1.2.3" "v1.3.0-rc.1" _ _ _ _ _));
    first [reflexivity | split; [discriminate | reflexivity]].
Defined.

(** ** Choosing *)

Lemma choose_updates_from (World : Type) (modules : list GoModule) (choice : list Z) :
  forall (updates result : list GoModule) (st : state World),
    choose_updates World modules choice updates st = (Returns result, st)
    <-> exists selected,
          Forall2 (at_index modules) choice selected /\
          result = (updates ++ selected)%list.
Proof.
  induction choice as [|x choice IH]; intros updates result st;
    cbn [choose_updates].
  - unfold ret. split.
    + intros H. inversion H; subst. exists []. rewrite app_nil_r. split; constructor.
    + intros (sel & Hsel & ->). inversion Hsel; subst. now rewrite app_nil_r.
  - destruct (x <? 0)%Z eqn:Hneg.
    + apply Z.ltb_lt in Hneg. split; [discriminate|].
      intros (sel & Hsel & _). inversion Hsel as [|? m ? sel' [Hx _] _]; subst. lia.
    + apply Z.ltb_ge in Hneg.
      destruct (nth_error modules (Z.to_nat x)) as [m|] eqn:Hnth.
      * rewrite IH. split.
        -- intros (sel & Hsel & ->). exists (m :: sel). split.
           ++ constructor; [now split | exact Hsel].
           ++ now rewrite <- app_assoc.
        -- intros (sel & Hsel & ->).
           inversion Hsel as [|? m' ? sel' [_ Hm'] Hsel']; subst.
           rewrite Hnth in Hm'. inversion Hm'; subst.
           exists sel'. split; [exact Hsel' | now rewrite <- app_assoc].
      * split; [discriminate|].
        intros (sel & Hsel & _). inversion Hsel as [|? m ? sel' [_ Hm] _]; subst.
        rewrite Hnth in Hm. discriminate Hm.
Qed.

Lemma choose_updates_panics (World : Type) (modules : list GoModule) (choice : list Z) :
  forall (updates : list GoModule) (st : state World),
    choose_updates World modules choice updates st = (Panics, st)
    <-> exists x, In x choice /\ out_of_range modules x.
Proof.
  induction choice as [|x choice IH]; intros updates st; cbn [choose_updates].
  - unfold ret. split; [discriminate | intros (x & [] & _)].
  - destruct (x <? 0)%Z eqn:Hneg.
    + apply Z.ltb_lt in Hneg. split; [|reflexivity].
      intros _. exists x. split; [now left | now left].
    + apply Z.ltb_ge in Hneg.
      destruct (nth_error modules (Z.to_nat x)) as [m|] eqn:Hnth.
      * rewrite IH. split.
        -- intros (y & Hy & Hout). exists y. split; [now right | exact Hout].
        -- intros (y & [<-|Hy] & Hout); [|now exists y].
           exfalso. assert (Hlt : (Z.to_nat x < List.length modules)%nat).
           { apply nth_error_Some. congruence. }
           destruct Hout; lia.
      * split; [|reflexivity]. intros _. exists x. split; [now left|].
        right. apply nth_error_None in Hnth. lia.
Qed.

Lemma choose_updates_selected
    (World : Type) (modules : list GoModule) (choice : list Z) (st : state World)
    (selected : list GoModule) :
  choose_updates World modules choice [] st = (Returns selected, st)
  <-> Forall2 (at_index modules) choice selected.
Proof.
  rewrite choose_updates_from. cbn [app]. split.
  - now intros (sel & Hsel & ->).
  - intros Hsel. now exists selected.
Qed.

(** X9: the last loop of [choose] returns, for the indices that the widget
    gave, the records at these indices, in the order of the indices and as
    often as an index occurs; it returns exactly when every index is an
    index of the list, and panics exactly when one is not.  Every record
    returned is a record of the list. *)
Theorem choose_updates_selects
    (World : Type) (modules : list GoModule) (choice : list Z) (st : state World) :
  (forall selected,
     choose_updates World modules choice [] st = (Returns selected, st)
     <-> Forall2 (at_index modules) choice selected) /\
  (choose_updates World modules choice [] st = (Panics, st)
   <-> exists x, In x choice /\ out_of_range modules x) /\
  (forall selected,
     choose_updates World modules choice [] st = (Returns selected, st) ->
     List.length selected = List.length choice /\
     forall m, In m selected -> In m modules).
Proof.
  assert (H : forall selected,
     choose_updates World modules choice [] st = (Returns selected, st)
     <-> Forall2 (at_index modules) choice selected)
    by (intros; apply choose_updates_selected).
  split; [exact H|]. split; [apply choose_updates_panics|].
  intros selected Hrun. apply H in Hrun. split.
  - symmetry. eapply Forall2_length; exact Hrun.
  - clear H. induction Hrun as [|x m l l' [_ Hm] _ IH]; intros m' Hin; [destruct Hin|].
    destruct Hin as [<-|Hin]; [|now apply IH].
    eapply nth_error_In; exact Hm.
Qed.

Lemma choose_outcome
    (NoColor : bool) (World : Type) (sys : System World)
    (modules : list GoModule) (pageSize : Z) (st : state World)
    (width height : Z) (err : option error) (w : World)
    (choice : list Z) (err' : option error) (w' : World) :
  GetSize sys (world st) = (width, height, err, w) ->
  AskOne sys (choose_asks NoColor width modules) pageSize w = (choice, err', w') ->
  let pre := choose_prefix NoColor modules pageSize width height err choice err' in
  choose NoColor World sys modules pageSize st
    = match err' with
      | Some InterruptErr =>
          (Exits 0%Z, mkState w' (trace st ++ pre ++ [EvStdout ("Bye" ++ nl)]))
      | Some e =>
          (Exits 1%Z, mkState w' (trace st ++ pre ++ [EvLog (Error e)]))
      | None =>
          choose_updates World modules choice [] (mkState w' (trace st ++ pre))
      end.
Proof.
  intros Hsize Hask pre. subst pre. unfold choose_prefix, choose_asks in *.
  unfold choose. destruct (choose_max modules) as [[maxName maxFrom] maxTo].
  unfold bind, terminal_GetSize, survey_AskOne.
  rewrite Hsize. cbn [world trace].
  destruct err as [e|]; unfold Printf, emit, ret; cbn [world trace];
    rewrite Hask; destruct err' as [[msg|msg|]|];
    unfold Fatal, Println, emit, Exit; cbn [world trace app];
    rewrite <- ?app_assoc; reflexivity.
Qed.

(** X10: what [choose] does with the answer of the widget.  On an interrupt
    it prints [Bye] and ends the process with status 0; on any other error
    it logs the message and ends the process with status 1; without an
    error it goes on to the records at the chosen indices.  Whatever the
    answer, it has asked the terminal once and the widget once, has run no
    command, and a failed question about the size of the terminal is only
    printed. *)
Theorem choose_after_the_widget
    (NoColor : bool) (World : Type) (sys : System World)
    (modules : list GoModule) (pageSize : Z) (st : state World)
    (width height : Z) (err : option error) (w : World)
    (choice : list Z) (err' : option error) (w' : World) :
  GetSize sys (world st) = (width, height, err, w) ->
  AskOne sys (choose_asks NoColor width modules) pageSize w = (choice, err', w') ->
  exists r tr,
    choose NoColor World sys modules pageSize st = (r, mkState w' (trace st ++ tr)) /\
    calls tr = [EvGetSize width height err;
                EvAskOne (choose_asks NoColor width modules) pageSize choice err'] /\
    commands tr = [] /\
    match err' with
    | Some InterruptErr =>
        r = Exits 0%Z /\ exists tr0, tr = (tr0 ++ [EvStdout ("Bye" ++ nl)])%list
    | Some e =>
        r = Exits 1%Z /\ exists tr0, tr = (tr0 ++ [EvLog (Error e)])%list
    | None =>
        (forall selected,
           r = Returns selected <-> Forall2 (at_index modules) choice selected) /\
        (r = Panics <-> exists x, In x choice /\ out_of_range modules x)
    end.
Proof.
  intros Hsize Hask.
  pose proof (choose_outcome NoColor World sys modules pageSize st width height err w
                choice err' w' Hsize Hask) as Hrun.
  cbv zeta in Hrun.
  set (pre := choose_prefix NoColor modules pageSize width height err choice err') in *.
  assert (Hcalls : forall post, calls post = [] ->
            calls (pre ++ post)
            = [EvGetSize width height err;
               EvAskOne (choose_asks NoColor width modules) pageSize choice err']).
  { intros post Hpost. rewrite calls_app, Hpost, app_nil_r.
    subst pre. unfold choose_prefix. now destruct err. }
  assert (Hcmds : forall post, commands post = [] -> commands (pre ++ post) = []).
  { intros post Hpost. unfold commands in *. rewrite flat_map_app, Hpost, app_nil_r.
    subst pre. unfold choose_prefix. now destruct err. }
  destruct err' as [[msg|msg|]|].
  - eexists _, _. split; [exact Hrun|]. split; [now apply Hcalls|].
    split; [now apply Hcmds|]. split; [reflexivity | now exists pre].
  - eexists _, _. split; [exact Hrun|]. split; [now apply Hcalls|].
    split; [now apply Hcmds|]. split; [reflexivity | now exists pre].
  - eexists _, _. split; [exact Hrun|]. split; [now apply Hcalls|].
    split; [now apply Hcmds|]. split; [reflexivity | now exists pre].
  - destruct (choose_updates_trace World modules choice []
                (mkState w' (trace st ++ pre))) as (r & Hr).
    rewrite Hr in Hrun. exists r, pre. split; [exact Hrun|].
    specialize (Hcalls [] eq_refl). specialize (Hcmds [] eq_refl).
    rewrite app_nil_r in Hcalls, Hcmds.
    split; [exact Hcalls|]. split; [exact Hcmds|]. split.
    + intros selected.
      rewrite <- (choose_updates_selected World modules choice
                    (mkState w' (trace st ++ pre))), Hr.
      split; [now intros -> | congruence].
    + rewrite <- (choose_updates_panics World modules choice []
                    (mkState w' (trace st ++ pre))), Hr.
      split; [now intros -> | congruence].
Qed.

(** ** The whole run *)

Lemma commands_app (a b : list event) :
  commands (a ++ b) = (commands a ++ commands b)%list.
Proof. apply flat_map_app. Qed.

(** The commands of a trace are those of its calls. *)
Lemma commands_calls (tr : list event) : commands tr = commands (calls tr).
Proof.
  unfold commands, calls. induction tr as [|e tr IH]; [reflexivity|].
  destruct e; simpl; rewrite IH; reflexivity.
Qed.

Lemma discover_trace
    (NewVersion : string -> Version + error) (World : Type) (sys : System World)
    (verbose : bool) (st : state World) (out : string) (err0 : option error) (w : World) :
  Output sys ("go" :: discover_args) (world st) = (out, err0, w) ->
  exists tr,
    discover NewVersion World sys verbose st
      = (Returns (match err0 with
                  | Some e => ([], Some e)
                  | None => discover_lines NewVersion (strings.Split out LF) []
                  end),
         mkState w (trace st ++ tr)) /\
    calls tr = [EvExec ("go" :: discover_args) out err0].
Proof.
  intros Hout. unfold discover, bind, Println, emit, exec_Output.
  cbn [world trace]. rewrite Hout. destruct err0 as [e|].
  - unfold ret. eexists [_; _]. split; [rewrite <- app_assoc; reflexivity | reflexivity].
  - match goal with |- context [discover_loop _ _ _ ?sp ?ms ?s] =>
      destruct (discover_loop_prints NewVersion World verbose sp ms s)
        as (tr & Hrun & Hc & _) end.
    rewrite Hrun. cbn [world trace]. eexists (_ :: _ :: tr).
    split; [rewrite <- !app_assoc; reflexivity|].
    cbn. unfold calls in Hc. now rewrite Hc.
Qed.

Lemma kept_none (out : string) :
  Forall (fun x => x = "" \/ x = "''") (strings.Split out LF) -> kept out = [].
Proof.
  unfold kept. generalize (strings.Split out LF). intros l Hl.
  induction Hl as [|x l Hx _ IH]; simpl; [reflexivity|].
  destruct Hx as [->| ->]; exact IH.
Qed.

(** X11: when the listing holds nothing but empty lines and sentinels,
    [main] prints that all modules are up to date and returns; it has run
    the listing command and made no other call: it asks neither the
    terminal nor the operator and upgrades nothing. *)
Theorem main_nothing_to_update
    (NoColor : bool) (NewVersion : string -> Version + error)
    (World : Type) (sys : System World) (pageSize : Z) (verbose : bool)
    (st : state World) (out : string) (w : World) :
  Output sys ("go" :: discover_args) (world st) = (out, None, w) ->
  Forall (fun x => x = "" \/ x = "''") (strings.Split out LF) ->
  exists tr,
    main NoColor NewVersion World sys pageSize verbose st
      = (Returns tt,
         mkState w (trace st ++ tr ++ [EvStdout ("All modules are up to date" ++ nl)])) /\
    calls tr = [EvExec ("go" :: discover_args) out None].
Proof.
  intros Hout Hall.
  destruct (discover_trace NewVersion World sys verbose st out None w Hout)
    as (tr & Hrun & Hcalls).
  assert (Hres : discover_lines NewVersion (strings.Split out LF) [] = ([], None)).
  { apply discover_lines_ok. exists []. split; [|reflexivity].
    fold (kept out). rewrite (kept_none out Hall). constructor. }
  rewrite Hres in Hrun.
  exists tr. split; [|exact Hcalls].
  unfold main, bind. rewrite Hrun. cbn [List.length Z.of_nat].
  change (0 >? 0)%Z with false. cbv iota.
  unfold Println, emit. cbn [world trace]. now rewrite <- app_assoc.
Qed.

Lemma main_nothing_to_update_witness :
  exists tr,
    main true semver.parseVersion script scripted 10%Z false (mkState sentinel_only [])
      = (Returns tt,
         mkState sentinel_only
           ([] ++ tr ++ [EvStdout ("All modules are up to date" ++ nl)])) /\
    calls tr = [EvExec ("go" :: discover_args) ("''" ++ nl) None].
Proof.
  apply (main_nothing_to_update true semver.parseVersion script scripted 10%Z false
           (mkState sentinel_only []) ("''" ++ nl) sentinel_only eq_refl).
  constructor; [now right|]. constructor; [now left|]. constructor.
Defined.

(** X12: when the listing command fails, or when some line of its output is
    neither empty nor the sentinel and gives no record, [main] logs the
    error and ends the process with status 1; the listing command is the
    only call it has made, so nothing is shown to the operator and nothing
    is upgraded.  The error of a failed listing command is the one
    logged. *)
Theorem main_stops_on_discovery_error
    (NoColor : bool) (NewVersion : string -> Version + error)
    (World : Type) (sys : System World) (pageSize : Z) (verbose : bool)
    (st : state World) (out : string) (err0 : option error) (w : World) :
  Output sys ("go" :: discover_args) (world st) = (out, err0, w) ->
  err0 <> None \/ (exists x, In x (strings.Split out LF) /\ fatal_line NewVersion x) ->
  exists e tr,
    main NoColor NewVersion World sys pageSize verbose st
      = (Exits 1%Z, mkState w (trace st ++ tr ++ [EvLog (Error e)])) /\
    calls tr = [EvExec ("go" :: discover_args) out err0] /\
    (err0 <> None -> err0 = Some e).
Proof.
  intros Hout Hbad.
  destruct (discover_trace NewVersion World sys verbose st out err0 w Hout)
    as (tr & Hrun & Hcalls).
  assert (Hres : exists e,
            match err0 with
            | Some e => ([], Some e)
            | None => discover_lines NewVersion (strings.Split out LF) []
            end = ([], Some e) /\ (err0 <> None -> err0 = Some e)).
  { destruct err0 as [e0|].
    - exists e0. auto.
    - destruct Hbad as [Hbad|(x & Hin & Hx1 & Hx2 & Hno)]; [congruence|].
      destruct (discover_lines_some_error NewVersion (strings.Split out LF) x Hin)
        with (modules := @nil GoModule) as (e & He).
      + unfold skipped. apply String.eqb_neq in Hx1, Hx2. now rewrite Hx1, Hx2.
      + intros d Hd. apply line_module_parses in Hd. now apply (Hno d).
      + exists e. split; [exact He | congruence]. }
  destruct Hres as (e & Hres & He). rewrite Hres in Hrun.
  exists e, tr. split; [|split; [exact Hcalls | exact He]].
  unfold main, bind. rewrite Hrun. unfold Fatal. cbn [world trace].
  now rewrite <- app_assoc.
Qed.

Lemma main_stops_on_discovery_error_witness :
  exists e tr,
    main true semver.parseVersion script scripted 10%Z false (mkState listing_fails [])
      = (Exits 1%Z, mkState listing_fails ([] ++ tr ++ [EvLog (Error e)])) /\
    calls tr = [EvExec ("go" :: discover_args) "" (Some (LibError "exit status 1"))] /\
    (Some (LibError "exit status 1") <> None -> Some (LibError "exit status 1") = Some e).
Proof.
  apply (main_stops_on_discovery_error true semver.parseVersion script scripted 10%Z
           false (mkState listing_fails []) "" (Some (LibError "exit status 1"))
           listing_fails eq_refl).
  left. discriminate.
Defined.

(** The run of [main] up to the answer of the widget, when the listing gives
    at least one record. *)
Lemma main_reaches_the_widget
    (NoColor : bool) (NewVersion : string -> Version + error)
    (World : Type) (sys : System World) (pageSize : Z) (verbose : bool)
    (st : state World) (out : string) (w1 : World) (ms : list GoModule)
    (width height : Z) (errS : option error) (w2 : World)
    (choice : list Z) (err' : option error) (w3 : World) :
  Output sys ("go" :: discover_args) (world st) = (out, None, w1) ->
  Forall2 (parses NewVersion) (kept out) ms ->
  ms <> [] ->
  GetSize sys w1 = (width, height, errS, w2) ->
  AskOne sys (choose_asks NoColor width ms) pageSize w2 = (choice, err', w3) ->
  exists tr,
    calls tr = [EvExec ("go" :: discover_args) out None;
                EvGetSize width height errS;
                EvAskOne (choose_asks NoColor width ms) pageSize choice err'] /\
    main NoColor NewVersion World sys pageSize verbose st
      = match err' with
        | Some InterruptErr =>
            (Exits 0%Z, mkState w3 (trace st ++ tr ++ [EvStdout ("Bye" ++ nl)]))
        | Some e => (Exits 1%Z, mkState w3 (trace st ++ tr ++ [EvLog (Error e)]))
        | None =>
            match choose_updates World ms choice [] (mkState w3 (trace st ++ tr)) with
            | (Returns selected, st') => update NoColor World sys selected st'
            | (Exits code, st') => (Exits code, st')
            | (Panics, st') => (Panics, st')
            end
        end.
Proof.
  intros Hout Hms Hne Hsize Hask.
  destruct (discover_trace NewVersion World sys verbose st out None w1 Hout)
    as (tr & Hrun & Hcalls).
  assert (Hres : discover_lines NewVersion (strings.Split out LF) [] = (ms, None)).
  { apply discover_lines_ok. now exists ms. }
  rewrite Hres in Hrun.
  pose proof (choose_outcome NoColor World sys ms pageSize
                (mkState w1 (trace st ++ tr)) width height errS w2 choice err' w3
                Hsize Hask) as Hchoose.
  cbv zeta in Hchoose. cbn [world trace] in Hchoose.
  set (pre := choose_prefix NoColor ms pageSize width height errS choice err') in *.
  exists (tr ++ pre)%list. split.
  { rewrite calls_app, Hcalls. subst pre. unfold choose_prefix. now destruct errS. }
  unfold main. unfold bind at 1. rewrite Hrun.
  assert (Hlen : (Z.of_nat (List.length ms) >? 0)%Z = true).
  { destruct ms; [congruence|]. apply Z.gtb_lt. cbn [List.length]. lia. }
  rewrite Hlen. unfold bind. rewrite Hchoose.
  destruct err' as [[msg|msg|]|]; rewrite <- ?app_assoc; reflexivity.
Qed.

(** X13: when the operator interrupts the selection, [main] prints [Bye]
    and ends the process with status 0; when the widget fails otherwise,
    [main] logs the error and ends the process with status 1.  In both
    cases the listing command is the only command that was run: nothing is
    upgraded. *)
Theorem main_no_upgrade_without_selection
    (NoColor : bool) (NewVersion : string -> Version + error)
    (World : Type) (sys : System World) (pageSize : Z) (verbose : bool)
    (st : state World) (out : string) (w1 : World) (ms : list GoModule)
    (width height : Z) (errS : option error) (w2 : World)
    (choice : list Z) (e : error) (w3 : World) :
  Output sys ("go" :: discover_args) (world st) = (out, None, w1) ->
  Forall2 (parses NewVersion) (kept out) ms ->
  ms <> [] ->
  GetSize sys w1 = (width, height, errS, w2) ->
  AskOne sys (choose_asks NoColor width ms) pageSize w2 = (choice, Some e, w3) ->
  exists tr,
    main NoColor NewVersion World sys pageSize verbose st
      = (Exits (match e with InterruptErr => 0 | _ => 1 end)%Z,
         mkState w3 (trace st ++ tr)) /\
    commands tr = ["go" :: discover_args] /\
    exists tr0,
      tr = (tr0 ++ [match e with
                    | InterruptErr => EvStdout ("Bye" ++ nl)
                    | _ => EvLog (Error e)
                    end])%list.
Proof.
  intros Hout Hms Hne Hsize Hask.
  destruct (main_reaches_the_widget NoColor NewVersion World sys pageSize verbose st
              out w1 ms width height errS w2 choice (Some e) w3
              Hout Hms Hne Hsize Hask) as (tr & Hcalls & Hrun).
  assert (Hcmd : forall last, calls [last] = [] ->
                 commands (tr ++ [last]) = ["go" :: discover_args]).
  { intros last Hlast.
    rewrite commands_calls, calls_app, Hlast, Hcalls. reflexivity. }
  destruct e as [msg|msg|]; eexists; (split; [exact Hrun|]);
    (split; [now apply Hcmd | now exists tr]).
Qed.

Lemma main_no_upgrade_without_selection_witness :
  exists tr,
    main true semver.parseVersion script scripted 10%Z false (mkState interrupted [])
      = (Exits 0%Z, mkState interrupted ([] ++ tr)) /\
    commands tr = ["go" :: discover_args] /\
    exists tr0, tr = (tr0 ++ [EvStdout ("Bye" ++ nl)])%list.
Proof.
  apply (main_no_upgrade_without_selection true semver.parseVersion script scripted
           10%Z false (mkState interrupted [])
           ("'foo: 1.2.3 -> 1.3.0'" ++ nl) interrupted [foo_record]
           80%Z 24%Z None interrupted [] InterruptErr interrupted).
  - reflexivity.
  - repeat constructor. exists "'foo: 1.2.3 -> 1.3.0'", "1.2.3", "1.3.0". repeat split.
  - discriminate.
  - reflexivity.
  - reflexivity.
Defined.

(** X14: when the listing gives records and the operator chooses some of
    them, [main] runs [go get] for exactly the chosen records, in the order
    in which the widget gave their indices, after the listing command, and
    returns, whether or not some upgrade fails; the records that were not
    chosen are not upgraded.  When the widget gives an index outside the
    list, [main] panics before any upgrade. *)
Theorem main_upgrades_the_selection
    (NoColor : bool) (NewVersion : string -> Version + error)
    (World : Type) (sys : System World) (pageSize : Z) (verbose : bool)
    (st : state World) (out : string) (w1 : World) (ms : list GoModule)
    (width height : Z) (errS : option error) (w2 : World)
    (choice : list Z) (w3 : World) :
  Output sys ("go" :: discover_args) (world st) = (out, None, w1) ->
  Forall2 (parses NewVersion) (kept out) ms ->
  ms <> [] ->
  GetSize sys w1 = (width, height, errS, w2) ->
  AskOne sys (choose_asks NoColor width ms) pageSize w2 = (choice, None, w3) ->
  (forall selected,
     Forall2 (at_index ms) choice selected ->
     exists w4 tr,
       main NoColor NewVersion World sys pageSize verbose st
         = (Returns tt, mkState w4 (trace st ++ tr)) /\
       commands tr
         = ("go" :: discover_args) :: map (fun m => ["go"; "get"; name m]) selected) /\
  ((exists x, In x choice /\ out_of_range ms x) ->
   exists tr,
     main NoColor NewVersion World sys pageSize verbose st
       = (Panics, mkState w3 (trace st ++ tr)) /\
     commands tr = ["go" :: discover_args]).
Proof.
  intros Hout Hms Hne Hsize Hask.
  destruct (main_reaches_the_widget NoColor NewVersion World sys pageSize verbose st
              out w1 ms width height errS w2 choice None w3
              Hout Hms Hne Hsize Hask) as (tr & Hcalls & Hrun).
  assert (Hcmd : commands tr = ["go" :: discover_args]).
  { rewrite commands_calls, Hcalls. reflexivity. }
  split.
  - intros selected Hsel.
    apply (choose_updates_selected World ms choice (mkState w3 (trace st ++ tr)))
      in Hsel.
    rewrite Hsel in Hrun.
    destruct (update_trace NoColor World sys selected (mkState w3 (trace st ++ tr)))
      as (w4 & new & Hup & Hnew & _).
    cbn [world trace] in Hup. rewrite Hup in Hrun.
    exists w4, (tr ++ new)%list. split; [now rewrite app_assoc|].
    now rewrite commands_app, Hcmd, Hnew.
  - intros Hbad.
    apply (choose_updates_panics World ms choice [] (mkState w3 (trace st ++ tr)))
      in Hbad.
    rewrite Hbad in Hrun. now exists tr.
Qed.

Lemma main_upgrades_the_selection_witness :
  exists w4 tr,
    main true semver.parseVersion script scripted 10%Z false (mkState picks_c_and_a [])
      = (Returns tt, mkState w4 ([] ++ tr)) /\
    commands tr
      = [("go" :: discover_args); ["go"; "get"; "c"]; ["go"; "get"; "a"]].
Proof.
  destruct (main_upgrades_the_selection true semver.parseVersion script scripted
              10%Z false (mkState picks_c_and_a [])
              (fst (listing picks_c_and_a)) picks_c_and_a three_modules
              80%Z 24%Z None picks_c_and_a [2; 0]%Z picks_c_and_a) as [Hsel _].
  - reflexivity.
  - repeat constructor.
    + exists "'a: 1.0.0 -> 1.0.1'", "1.0.0", "1.0.1". repeat split.
    + exists "'b: 1.0.0 -> 1.1.0'", "1.0.0", "1.1.0". repeat split.
    + exists "'c: 1.0.0 -> 1.0.0-rc'", "1.0.0", "1.0.0-rc". repeat split.
  - discriminate.
  - reflexivity.
  - reflexivity.
  - apply (Hsel [nth 2 three_modules foo_record; nth 0 three_modules foo_record]).
    constructor; [split; [lia | reflexivity]|].
    constructor; [split; [lia | reflexivity]|]. constructor.
Defined.

Lemma choose_after_the_widget_witness :
  exists r tr,
    choose true script scripted [foo_record] 10%Z (mkState interrupted [])
      = (r, mkState interrupted ([] ++ tr)) /\
    calls tr = [EvGetSize 80 24 None;
                EvAskOne (choose_asks true 80 [foo_record]) 10 [] (Some InterruptErr)] /\
    commands tr = [] /\
    r = Exits 0%Z /\ exists tr0, tr = (tr0 ++ [EvStdout ("Bye" ++ nl)])%list.
Proof.
  apply (choose_after_the_widget true script scripted [foo_record] 10%Z
           (mkState interrupted []) 80%Z 24%Z None interrupted
           [] (Some InterruptErr) interrupted); reflexivity.
Defined.

(** ** Which lines count *)

(** X15: the test [len(matched) < 4] of [discover] succeeds, and the line is
    refused with the error that names it, exactly when no part of the line
    is a quote, a text, [: ], a text, [ -> ], a text and a quote, the three
    texts not empty (a line holds no line feed).  The pattern is not
    anchored: a line that holds such a part between other bytes is taken. *)
Theorem discover_refuses_exactly_unmatched_lines (x : string) :
  ((Z.of_nat (List.length (regexp.FindStringSubmatch re x)) <? 4)%Z = true
   <-> ~ matches_pattern x) /\
  (forall NewVersion,
     ~ matches_pattern x ->
     line_module NewVersion x = inr (Errorf ("Couldn't parse module " ++ x))) /\
  (forall a n f t b,
     x = a ++ ("'" ++ n ++ ": " ++ f ++ " -> " ++ t ++ "'") ++ b ->
     group_text n -> group_text f -> group_text t ->
     (Z.of_nat (List.length (regexp.FindStringSubmatch re x)) <? 4)%Z = false).
Proof.
  assert (H : (Z.of_nat (List.length (regexp.FindStringSubmatch re x)) <? 4)%Z = true
              <-> ~ matches_pattern x).
  { rewrite <- no_match_iff.
    destruct (FindStringSubmatch_re x) as [->|(whole & n & f & t & ->)].
    - split; reflexivity.
    - split; discriminate. }
  split; [exact H|]. split.
  - intros NewVersion Hno. apply line_module_no_match. now apply no_match_iff.
  - intros a n f t b Hx Hn Hf Ht.
    destruct (Z.of_nat _ <? 4)%Z; [|reflexivity].
    exfalso. apply (proj1 H eq_refl). now exists a, n, f, t, b.
Qed.

Lemma Split_append (a b : string) :
  strings.Split (a ++ String LF b) LF = (strings.Split a LF ++ strings.Split b LF)%list.
Proof.
  induction a as [|c a IH]; cbn [append strings.Split].
  - now rewrite Ascii.eqb_refl.
  - rewrite IH. destruct (Ascii.eqb c LF); [reflexivity|].
    pose proof (Split_nonempty a LF) as Hne.
    destruct (strings.Split a LF); [congruence | reflexivity].
Qed.

Lemma kept_append (a b : string) : kept (a ++ String LF b) = (kept a ++ kept b)%list.
Proof. unfold kept. now rewrite Split_append, filter_app. Qed.

Lemma discover_lines_kept (NewVersion : string -> Version + error) (split : list string) :
  forall modules,
    discover_lines NewVersion split modules
    = discover_lines NewVersion (filter (fun x => negb (skipped x)) split) modules.
Proof.
  induction split as [|x split IH]; intros modules; [reflexivity|].
  cbn [discover_lines filter]. destruct (skipped x) eqn:Hx; cbn [negb].
  - apply IH.
  - cbn [discover_lines]. rewrite Hx.
    destruct (line_module NewVersion x); [apply IH | reflexivity].
Qed.

(** X16: the result of [discover] depends on the listing only through its
    lines that are neither empty nor the sentinel, in their order: two
    listings with the same such lines give the same result.  A line feed
    at the end of the listing, empty lines and sentinel lines therefore
    change nothing, and the lines of a listing cut at a line feed are the
    lines of the first part followed by those of the second. *)
Theorem discover_sees_only_kept_lines
    (NewVersion : string -> Version + error) (World : Type) (sys : System World)
    (verbose : bool) (st st' : state World) (out out' : string) (w w' : World) :
  Output sys ("go" :: discover_args) (world st) = (out, None, w) ->
  Output sys ("go" :: discover_args) (world st') = (out', None, w') ->
  kept out = kept out' ->
  fst (discover NewVersion World sys verbose st)
    = fst (discover NewVersion World sys verbose st') /\
  (forall a b, kept (a ++ nl ++ b) = (kept a ++ kept b)%list) /\
  (forall a, kept (a ++ nl) = kept a) /\
  (forall a, kept (a ++ nl ++ "''" ++ nl) = kept a).
Proof.
  intros Hout Hout' Hkept.
  destruct (discover_run NewVersion World sys verbose st out w Hout) as (tr & ->).
  destruct (discover_run NewVersion World sys verbose st' out' w' Hout') as (tr' & ->).
  cbn [fst]. split.
  - rewrite (discover_lines_kept NewVersion (strings.Split out LF)),
      (discover_lines_kept NewVersion (strings.Split out' LF)).
    unfold kept in Hkept. now rewrite Hkept.
  - split; [intros a b; apply kept_append|]. split.
    + intros a. unfold nl. rewrite kept_append. cbn. apply app_nil_r.
    + intros a. change (a ++ nl ++ "''" ++ nl) with (a ++ String LF ("''" ++ String LF "")).
      rewrite !kept_append. cbn. apply app_nil_r.
Qed.

Lemma discover_sees_only_kept_lines_witness :
  fst (discover semver.parseVersion script scripted false (mkState one_line []))
    = fst (discover semver.parseVersion script scripted false
             (mkState one_line_and_sentinel [])).
Proof.
  destruct (discover_sees_only_kept_lines semver.parseVersion script scripted
              false (mkState one_line []) (mkState one_line_and_sentinel [])
              (fst (listing one_line)) (fst (listing one_line_and_sentinel))
              one_line one_line_and_sentinel) as [H _]; [reflexivity ..|].
  exact H.
Defined.

(** ** Upgrading in parts *)

Lemma update_cons
    (NoColor : bool) (World : Type) (sys : System World)
    (x : GoModule) (modules : list GoModule) (st : state World) :
  update NoColor World sys (x :: modules) st
    = update NoColor World sys modules (snd (update NoColor World sys [x] st)).
Proof.
  cbn [update]. unfold bind, emit, exec_CombinedOutput, Printf, ret.
  cbn [world trace].
  destruct (CombinedOutput sys ["go"; "get"; name x] (world st)) as [[out err] w].
  destruct err; reflexivity.
Qed.

(** X17: upgrading a list of records made of two parts is upgrading the
    first part and then, from the state it leaves, the second: [update]
    always returns, and it keeps nothing from one record to the next but the
    state of the world and the trace. *)
Theorem update_in_parts
    (NoColor : bool) (World : Type) (sys : System World)
    (first second : list GoModule) (st : state World) :
  update NoColor World sys (first ++ second) st
    = update NoColor World sys second (snd (update NoColor World sys first st)) /\
  fst (update NoColor World sys first st) = Returns tt.
Proof.
  split.
  - revert st. induction first as [|x first IH]; intros st; [reflexivity|].
    cbn [app]. rewrite (update_cons NoColor World sys x (first ++ second)), IH.
    now rewrite (update_cons NoColor World sys x first).
  - destruct (update_trace NoColor World sys first st) as (w & new & -> & _).
    reflexivity.
Qed.

Lemma choose_updates_selects_witness :
  choose_updates script three_modules [2; 0]%Z [] (mkState picks_c_and_a [])
    = (Returns [nth 2 three_modules foo_record; nth 0 three_modules foo_record],
       mkState picks_c_and_a []) /\
  choose_updates script three_modules [3]%Z [] (mkState picks_c_and_a [])
    = (Panics, mkState picks_c_and_a []).
Proof.
  destruct (choose_updates_selects script three_modules [2; 0]%Z
              (mkState picks_c_and_a [])) as (Hsel & _ & _).
  destruct (choose_updates_selects script three_modules [3]%Z
              (mkState picks_c_and_a [])) as (_ & Hpanic & _).
  split.
  - apply Hsel. constructor; [split; [lia | reflexivity]|].
    constructor; [split; [lia | reflexivity]|]. constructor.
  - apply Hpanic. exists 3%Z. split; [now left|]. right. simpl. lia.
Defined.

Lemma discover_refuses_exactly_unmatched_lines_witness :
  (Z.of_nat (List.length
               (regexp.FindStringSubmatch re "go: 'foo: 1.2.3 -> 1.3.0' (latest)")) <? 4)%Z
    = false.
Proof.
  destruct (discover_refuses_exactly_unmatched_lines
              "go: 'foo: 1.2.3 -> 1.3.0' (latest)") as (_ & _ & Htaken).
  apply (Htaken "go: " "foo" "1.2.3" "1.3.0" " (latest)");
    first [reflexivity | split; [discriminate | reflexivity]].
Defined.
